(** * md2conf: the Markdown pre-pass, its detectors and the rendering hooks

    A shallow embedding of [md2conf/markdown.py] and [md2conf/latex.py].

    Python values are modelled as the interpreter has them:
    - a [str] is a sequence of Unicode code points ([list N]);
    - an [int] is a [Z], a length ([len]) a [nat];
    - a [list] object that is only read is a Rocq list, one that is mutated
      through a shared reference lives in a heap ([gmap loc (list str)]);
    - a [dict] is a [gmap] when only looked up, an association list when its
      insertion order is observable;
    - an exception is the [Raise] case of the [result] monad. *)

From Stdlib Require Import ZArith NArith List String Ascii Bool Lia.
From stdpp Require Import gmap list.

Import ListNotations.
Local Open Scope N_scope.

(** Python [str]: a sequence of code points. *)
Abbreviation str := (list N).

(** A literal of the source, as its code points (ASCII literals only). *)
Definition s (x : string) : str := map N_of_ascii (list_ascii_of_string x).
Arguments s _%_string.

(** ** Exceptions *)

Inductive exn : Type :=
| IndexError
| ValueError
| OverflowError
| RuntimeError (msg : str).

Inductive result (A : Type) : Type :=
| Ok (a : A)
| Raise (e : exn).
Arguments Ok {A} a.
Arguments Raise {A} e.

Definition bind {A B} (m : result A) (k : A -> result B) : result B :=
  match m with
  | Ok a => k a
  | Raise e => Raise e
  end.

Notation "'try!' x := m 'in' k" := (bind m (fun x => k))
  (at level 10, x name, m at level 200, k at level 200,
   format "'[v' 'try!'  x  :=  m  'in' '/' k ']'").

(** ** The builtins the two modules call *)

Module Py.

(** Membership in a table of inclusive code point ranges. *)
Definition in_ranges (c : N) (tbl : list (N * N)) : bool :=
  existsb (fun r => (fst r <=? c) && (c <=? snd r)) tbl.

(** [str.isspace] of one code point, the set [str.strip] removes
    (CPython 3.11, Unicode 14.0). *)
Definition space_ranges : list (N * N) :=
  [(9, 13); (28, 32); (133, 133); (160, 160); (5760, 5760); (8192, 8202);
   (8232, 8233); (8239, 8239); (8287, 8287); (12288, 12288)].

Definition isspace (c : N) : bool := in_ranges c space_ranges.

(** [str.isdigit] of one code point (CPython 3.11, Unicode 14.0). *)
Definition digit_ranges : list (N * N) :=
  [(48, 57); (178, 179); (185, 185); (1632, 1641); (1776, 1785);
   (1984, 1993); (2406, 2415); (2534, 2543); (2662, 2671); (2790, 2799);
   (2918, 2927); (3046, 3055); (3174, 3183); (3302, 3311); (3430, 3439);
   (3558, 3567); (3664, 3673); (3792, 3801); (3872, 3881); (4160, 4169);
   (4240, 4249); (4969, 4977); (6112, 6121); (6160, 6169); (6470, 6479);
   (6608, 6618); (6784, 6793); (6800, 6809); (6992, 7001); (7088, 7097);
   (7232, 7241); (7248, 7257); (8304, 8304); (8308, 8313); (8320, 8329);
   (9312, 9320); (9332, 9340); (9352, 9360); (9450, 9450); (9461, 9469);
   (9471, 9471); (10102, 10110); (10112, 10120); (10122, 10130);
   (42528, 42537); (43216, 43225); (43264, 43273); (43472, 43481);
   (43504, 43513); (43600, 43609); (44016, 44025); (65296, 65305);
   (66720, 66729); (68160, 68163); (68912, 68921); (69216, 69224);
   (69714, 69722); (69734, 69743); (69872, 69881); (69942, 69951);
   (70096, 70105); (70384, 70393); (70736, 70745); (70864, 70873);
   (71248, 71257); (71360, 71369); (71472, 71481); (71904, 71913);
   (72016, 72025); (72784, 72793); (73040, 73049); (73120, 73129);
   (92768, 92777); (92864, 92873); (93008, 93017); (120782, 120831);
   (123200, 123209); (123632, 123641); (125264, 125273); (127232, 127242);
   (130032, 130041)].

Definition isdigit (c : N) : bool := in_ranges c digit_ranges.

(** The code points with a decimal digit value ([Py_UNICODE_TODECIMAL]):
    runs of ten that start at the digit zero. *)
Definition decimal_ranges : list (N * N) :=
  [(48, 57); (1632, 1641); (1776, 1785); (1984, 1993); (2406, 2415);
   (2534, 2543); (2662, 2671); (2790, 2799); (2918, 2927); (3046, 3055);
   (3174, 3183); (3302, 3311); (3430, 3439); (3558, 3567); (3664, 3673);
   (3792, 3801); (3872, 3881); (4160, 4169); (4240, 4249); (6112, 6121);
   (6160, 6169); (6470, 6479); (6608, 6617); (6784, 6793); (6800, 6809);
   (6992, 7001); (7088, 7097); (7232, 7241); (7248, 7257); (42528, 42537);
   (43216, 43225); (43264, 43273); (43472, 43481); (43504, 43513);
   (43600, 43609); (44016, 44025); (65296, 65305); (66720, 66729);
   (68912, 68921); (69734, 69743); (69872, 69881); (69942, 69951);
   (70096, 70105); (70384, 70393); (70736, 70745); (70864, 70873);
   (71248, 71257); (71360, 71369); (71472, 71481); (71904, 71913);
   (72016, 72025); (72784, 72793); (73040, 73049); (73120, 73129);
   (92768, 92777); (92864, 92873); (93008, 93017); (120782, 120831);
   (123200, 123209); (123632, 123641); (125264, 125273); (130032, 130041)].

Definition todecimal (c : N) : option N :=
  match find (fun r => (fst r <=? c) && (c <=? snd r)) decimal_ranges with
  | Some r => Some ((c - fst r) mod 10)
  | None => None
  end.

(** [s.lstrip()], [s.rstrip()], [s.strip()] with no argument. *)
Fixpoint lstrip (x : str) : str :=
  match x with
  | c :: x' => if isspace c then lstrip x' else x
  | [] => []
  end.

Definition rstrip (x : str) : str := rev (lstrip (rev x)).

Definition strip (x : str) : str := rstrip (lstrip x).

(** [s.strip(chars)]. *)
Fixpoint lstrip_chars (chars x : str) : str :=
  match x with
  | c :: x' => if existsb (N.eqb c) chars then lstrip_chars chars x' else x
  | [] => []
  end.

Definition strip_chars (chars x : str) : str :=
  rev (lstrip_chars chars (rev (lstrip_chars chars x))).

(** [s.startswith(p)], and [s.startswith((p1, p2, ...))]. *)
Fixpoint startswith (x p : str) {struct p} : bool :=
  match p, x with
  | [], _ => true
  | c :: p', d :: x' => (c =? d) && startswith x' p'
  | _ :: _, [] => false
  end.

Definition startswith_any (x : str) (ps : list str) : bool :=
  existsb (startswith x) ps.

(** [p in s] for strings. *)
Fixpoint contains (x p : str) : bool :=
  startswith x p ||
  match x with
  | [] => false
  | _ :: x' => contains x' p
  end.

(** [s.split(sep)] for a separator of one code point. *)
Fixpoint split (sep : N) (x : str) : list str :=
  match x with
  | [] => [[]]
  | c :: x' =>
      if c =? sep then [] :: split sep x'
      else match split sep x' with
           | l :: ls => (c :: l) :: ls
           | [] => [[c]]
           end
  end.

(** [sep.join(parts)]. *)
Fixpoint join (sep : str) (parts : list str) : str :=
  match parts with
  | [] => []
  | [p] => p
  | p :: ps => p ++ sep ++ join sep ps
  end.

(** [range(start, stop)] and [range(start, stop, -1)]. *)
Definition range (start stop : Z) : list Z :=
  map (fun k => (start + Z.of_nat k)%Z) (seq 0 (Z.to_nat (stop - start))).

Definition range_down (start stop : Z) : list Z :=
  map (fun k => (start - Z.of_nat k)%Z) (seq 0 (Z.to_nat (start - stop))).

(** [l[i]]: a negative index counts from the end, an index out of range
    raises [IndexError]. *)
Definition getitem {A} (l : list A) (i : Z) : result A :=
  let n := Z.of_nat (length l) in
  let j := (if i <? 0 then i + n else i)%Z in
  if (j <? 0)%Z then Raise IndexError
  else match l !! Z.to_nat j with
       | Some a => Ok a
       | None => Raise IndexError
       end.

(** [chr(n)]. *)
Definition chr (n : Z) : result N :=
  if (n <? -2147483648)%Z || (2147483647 <? n)%Z then Raise OverflowError
  else if (n <? 0)%Z || (1114111 <? n)%Z then Raise ValueError
  else Ok (Z.to_N n).

(** *** [int(x, base=16)] for a [str] argument *)

(** [_PyLong_DigitValue], restricted to the values below 16. *)
Definition hexval (c : N) : option N :=
  if (48 <=? c) && (c <=? 57) then Some (c - 48)
  else if (97 <=? c) && (c <=? 102) then Some (c - 87)
  else if (65 <=? c) && (c <=? 70) then Some (c - 55)
  else None.

(** [Py_ISSPACE]: the whitespace of the C locale. *)
Definition c_isspace (c : N) : bool := ((9 <=? c) && (c <=? 13)) || (c =? 32).

(** [_PyUnicode_TransformDecimalAndSpaceToASCII]: an ASCII string is taken
    as it is; otherwise whitespace becomes a space, a decimal digit its
    ASCII digit, and the first other code point from 127 on a question
    mark that ends the text. *)
Fixpoint transform (x : str) : str :=
  match x with
  | [] => []
  | c :: x' =>
      if c <? 127 then c :: transform x'
      else if isspace c then 32 :: transform x'
      else match todecimal c with
           | Some d => (48 + d) :: transform x'
           | None => [63]
           end
  end.

Definition to_ascii (x : str) : str :=
  if forallb (fun c => c <? 128) x then x else transform x.

Fixpoint skip_c_space (x : str) : str :=
  match x with
  | c :: x' => if c_isspace c then skip_c_space x' else x
  | [] => []
  end.

(** The digit loop of [long_from_binary_base]: digits below 16 with single
    underscores between them; [prev] tells whether the previous character
    was an underscore.  Returns the value, the number of characters read
    and the rest, or [None] on a doubled or trailing underscore. *)
Fixpoint hex_digits (x : str) (prev : bool) (acc : Z) (read : nat)
  : option (Z * nat * str) :=
  match x with
  | c :: x' =>
      if c =? 95 then
        if prev then None else hex_digits x' true acc (S read)
      else match hexval c with
           | Some d => hex_digits x' false (16 * acc + Z.of_N d)%Z (S read)
           | None => if prev then None else Some (acc, read, x)
           end
  | [] => if prev then None else Some (acc, read, [])
  end.

(** An optional sign. *)
Definition skip_sign (x : str) : Z * str :=
  match x with
  | c :: x' =>
      if c =? 43 then (1%Z, x')
      else if c =? 45 then ((-1)%Z, x')
      else (1%Z, x)
  | [] => (1%Z, x)
  end.

(** An optional [0x] or [0X], and one underscore after it. *)
Definition skip_prefix (x : str) : str :=
  match x with
  | c0 :: c1 :: x' =>
      if (c0 =? 48) && ((c1 =? 120) || (c1 =? 88)) then
        match x' with
        | u :: x'' => if u =? 95 then x'' else x'
        | [] => x'
        end
      else x
  | _ => x
  end.

(** [PyLong_FromString(str, &end, 16)] on the transformed text. *)
Definition int16 (x : str) : result Z :=
  let a := to_ascii x in
  (* an embedded NUL ends the C string before the end of the buffer *)
  if existsb (N.eqb 0) a then Raise ValueError else
  let '(sign, a) := skip_sign (skip_c_space a) in
  let a := skip_prefix a in
  if startswith a [95] then Raise ValueError
  else
    match hex_digits a false 0%Z 0 with
    | None => Raise ValueError
    | Some (v, read, rest) =>
        if Nat.eqb read 0 then Raise ValueError
        else match skip_c_space rest with
             | [] => Ok (sign * v)%Z
             | _ :: _ => Raise ValueError
             end
    end.

End Py.

(** ** md2conf/markdown.py *)

Module Markdown.
Import Py.

(** A [str] in a condition: true when it is not empty. *)
Definition truthy (x : str) : bool :=
  match x with
  | [] => false
  | _ :: _ => true
  end.

(** The tuple [('* ', '- ', '+ ')] of list markers. *)
Definition bullets : list str := [s "* "; s "- "; s "+ "].

(** The tuple of fence openers: three backticks, three tildes. *)
Definition fences : list str := [s "```"; s "~~~"].

(** *** [_emoji_generator] *)

(** An [xml.etree.ElementTree.Element]: tag, attributes and text. *)
Record Element : Type := {
  tag : str;
  attrib : gmap str str;
  text : option str
}.

(** The generator expression [chr(int(item, base=16)) for item in ...]:
    the items are decoded from left to right and the first failure is the
    one raised. *)
Fixpoint chars_of_items (items : list str) : result (list str) :=
  match items with
  | [] => Ok []
  | item :: items' =>
      try! n := int16 item in
      try! c := chr n in
      try! cs := chars_of_items items' in
      Ok ([c] :: cs)
  end.

(** The arguments [options] and [md] are not read; their types are left
    open. *)
Definition _emoji_generator {O M : Type} (index shortname : str)
    (alias uc : option str) (alt : str) (title category : option str)
    (options : O) (md : M) : result Element :=
  let name :=
    strip_chars (s ":")
      (match alias with
       | Some a => if truthy a then a else shortname
       | None => shortname
       end) in
  let emoji := {| tag := s "x-emoji";
                  attrib := {[ s "data-shortname" := name ]};
                  text := None |} in
  match uc with
  | Some uc =>
      let emoji := {| tag := tag emoji;
                      attrib := <[ s "data-unicode" := uc ]> (attrib emoji);
                      text := text emoji |} in
      try! chars := chars_of_items (split 45 uc) in
      Ok {| tag := tag emoji; attrib := attrib emoji;
            text := Some (join [] chars) |}
  | None =>
      Ok {| tag := tag emoji; attrib := attrib emoji; text := Some alt |}
  end.

(** *** [_verbatim_formatter] *)

(** The [list] objects a caller may share with the formatter live in a
    heap; [classes] is [None] or a reference into it. *)
Definition loc := positive.

(** [' '.join(f'{k}="{v}"' for k, v in attrs.items())]; a [dict] keeps the
    order of insertion, so it is given as its list of items. *)
Definition attr_items (attrs : list (str * str)) : list str :=
  map (fun kv => fst kv ++ s "=" ++ [34] ++ snd kv ++ [34]) attrs.

(** The result is [None] only when [classes] names no object of the heap,
    which no Python state does; otherwise the returned string and the heap
    after the call.  The defaults are [classes=None], [id_value=''],
    [attrs=None]. *)
Definition _verbatim_formatter {O M : Type} (source language css_class : str)
    (options : O) (md : M) (classes : option loc) (id_value : str)
    (attrs : option (list (str * str))) (h : gmap loc (list str))
  : option (str * gmap loc (list str)) :=
  let after :=
    match classes with
    | None => Some ([css_class], h)
    | Some l =>
        match h !! l with
        | Some old => Some (css_class :: old, <[ l := css_class :: old ]> h)
        | None => None
        end
    end in
  match after with
  | None => None
  | Some (classes, h') =>
      let html_id :=
        if truthy id_value then s " id=" ++ [34] ++ id_value ++ [34]
        else [] in
      let html_class := s " class=" ++ [34] ++ join (s " ") classes ++ [34] in
      let html_attrs :=
        match attrs with
        | Some (kv :: kvs) => s " " ++ join (s " ") (attr_items (kv :: kvs))
        | _ => []
        end in
      Some (s "<div" ++ html_id ++ html_class ++ html_attrs ++ s ">"
              ++ source ++ s "</div>", h')
  end.

(** [len(line) - len(line.lstrip())]. *)
Definition leading (line : str) : nat := length line - length (lstrip line).

(** *** [_is_likely_2space_system] *)

(** The loop over the window: the positive leading-whitespace counts of the
    non-blank list-marker lines, in the order of [idxs]. *)
Fixpoint collect_space_counts (lines : list str) (idxs : list Z)
  : result (list nat) :=
  match idxs with
  | [] => Ok []
  | i :: idxs' =>
      try! line := getitem lines i in
      try! space_counts := collect_space_counts lines idxs' in
      if truthy (strip line) && startswith_any (lstrip line) bullets then
        let spaces := (length line - length (lstrip line))%nat in
        if (0 <? spaces)%nat then Ok (spaces :: space_counts)
        else Ok space_counts
      else Ok space_counts
  end.

Definition _is_likely_2space_system (lines : list str) (current_index : Z)
  : result bool :=
  let start := Z.max 0 (current_index - 5) in
  let end_ := Z.min (Z.of_nat (length lines)) (current_index + 5) in
  try! space_counts := collect_space_counts lines (range start end_) in
  match space_counts with
  | [] => Ok false
  | _ :: _ =>
      let has_2space_pattern :=
        existsb (fun spaces => negb (spaces mod 4 =? 0)%nat)
                (List.filter (fun spaces => (spaces mod 2 =? 0)%nat)
                             space_counts) in
      Ok has_2space_pattern
  end.

(** *** [_is_list_continuation] *)

(** The backward loop: the first line that decides, else [False]. *)
Fixpoint scan_back (lines : list str) (idxs : list Z) : result bool :=
  match idxs with
  | [] => Ok false
  | i :: idxs' =>
      try! line := getitem lines i in
      if truthy (strip line) then
        let stripped := lstrip line in
        if startswith_any stripped bullets then Ok true
        else if (length line - length stripped =? 0)%nat then Ok false
        else scan_back lines idxs'
      else scan_back lines idxs'
  end.

Definition _is_list_continuation (lines : list str) (current_index : Z)
  : result bool :=
  if (current_index =? 0)%Z then Ok false
  else scan_back lines
         (range_down (current_index - 1) (Z.max (-1) (current_index - 5))).

(** *** [_preprocess_list_indentation] *)

Record scan_state : Type := {
  in_admonition : bool;
  in_code_block : bool
}.

Definition initial : scan_state :=
  {| in_admonition := false; in_code_block := false |}.

(** [stripped and stripped[0].isdigit() and '. ' in stripped[:10]]. *)
Definition numbered (stripped : str) : bool :=
  match stripped with
  | [] => false
  | c :: _ => isdigit c && contains (firstn 10 stripped) (s ". ")
  end.

(** The condition that guards the rewrite, with the short-circuit order of
    [and] and [or]: a detector is called only when the tests before it let
    it decide. *)
Definition reindent_test (lines : list str) (i : nat) (leading_spaces : nat)
    (stripped : str) : result bool :=
  if (leading_spaces mod 2 =? 0)%nat then
    try! two_space := _is_likely_2space_system lines (Z.of_nat i) in
    if two_space then
      if startswith_any stripped bullets then Ok true
      else if numbered stripped then Ok true
      else _is_list_continuation lines (Z.of_nat i)
    else Ok false
  else Ok false.

(** The body of the [for] loop for one [(i, line)]: the state after the
    line and the line appended to [processed_lines]. *)
Definition process_line (lines : list str) (st : scan_state) (i : nat)
    (line : str) : result (scan_state * str) :=
  if negb (truthy (strip line)) then Ok (st, line)
  else
    let stripped := lstrip line in
    if startswith_any (strip line) fences then
      Ok ({| in_admonition := in_admonition st;
             in_code_block := negb (in_code_block st) |}, line)
    else if in_code_block st then Ok (st, line)
    else if startswith stripped (s "!!!") then
      Ok ({| in_admonition := true;
             in_code_block := in_code_block st |}, line)
    else
      let adm :=
        if in_admonition st
           && (length line - length stripped =? 0)%nat
           && truthy stripped
        then false else in_admonition st in
      let st' := {| in_admonition := adm;
                    in_code_block := in_code_block st |} in
      let leading_spaces := (length line - length (lstrip line))%nat in
      if (leading_spaces =? 0)%nat
         || startswith_any stripped [s "`"; s "#"; s ">"]
         || adm
      then Ok (st', line)
      else
        try! rewrite_it := reindent_test lines i leading_spaces stripped in
        if rewrite_it then
          let indent_level := (leading_spaces / 2)%nat in
          let new_indent := repeat 32 (indent_level * 4)%nat in
          Ok (st', new_indent ++ stripped)
        else Ok (st', line).

(** The [for i, line in enumerate(lines)] loop from position [i] on. *)
Fixpoint process_lines (lines : list str) (st : scan_state) (i : nat)
    (todo : list str) : result (list str) :=
  match todo with
  | [] => Ok []
  | line :: todo' =>
      try! r := process_line lines st i line in
      try! processed_lines := process_lines lines (fst r) (S i) todo' in
      Ok (snd r :: processed_lines)
  end.

Definition _preprocess_list_indentation (content : str) : result str :=
  let lines := split 10 content in
  try! processed_lines := process_lines lines initial 0 lines in
  Ok (join [10] processed_lines).

(** *** [markdown_to_html] *)

Section Converter.

(** The engine [_CONVERTER] is an object of the Markdown library: its
    states, what [reset] makes of a state, and what [convert] returns for
    a text and leaves as state. *)
Variable Engine : Type.
Variable reset : Engine -> Engine.
Variable convert : Engine -> str -> result str * Engine.

(** The result and the state of the engine after the call. *)
Definition markdown_to_html (converter : Engine) (content : str)
  : result str * Engine :=
  let converter := reset converter in
  match _preprocess_list_indentation content with
  | Ok preprocessed_content => convert converter preprocessed_content
  | Raise e => (Raise e, converter)
  end.

End Converter.

End Markdown.

(** ** md2conf/latex.py *)

Module Latex.

Inductive image_format : Type := png | svg.

(** A binary stream ([BinaryIO], [BytesIO]): its bytes and the position
    of the next write. *)
Record BinaryIO : Type := {
  content : list N;
  position : nat
}.

Section Backend.

(** What [importlib.util.find_spec("matplotlib")] finds: nothing, or the
    backend, given by what drawing the text and [fig.savefig] do to the
    stream they write to, for a text, a format, a resolution and a font
    size. *)
Variable matplotlib :
  option (str -> image_format -> Z -> Z -> BinaryIO -> result BinaryIO).

Definition LATEX_ENABLED : bool :=
  match matplotlib with
  | None => false
  | Some _ => true
  end.

(** [f] is the stream before the call, the result the stream after it. *)
Definition _render_latex (expression : str) (f : BinaryIO)
    (format : image_format) (dpi font_size : Z) : result BinaryIO :=
  match matplotlib with
  | None =>
      Raise (RuntimeError
               (s "matplotlib not installed; run: `pip install matplotlib`"))
  | Some savefig =>
      savefig (s "$" ++ expression ++ s "$") format dpi font_size f
  end.

(** [with BytesIO() as f]: the stream starts empty, [f.getvalue()] is all
    of its bytes, and an exception of the body leaves the block
    unchanged. *)
Definition render_latex (expression : str) (format : image_format)
    (dpi font_size : Z) : result (list N) :=
  let f := {| content := []; position := 0 |} in
  try! f := _render_latex expression f format dpi font_size in
  Ok (content f).

End Backend.

End Latex.

(** ** The properties, in the words of the specification *)

Module Spec.
Import Py Markdown.

(** [l[lo:hi]] for [0 <= lo]. *)
Definition slice {A} (l : list A) (lo hi : Z) : list A :=
  firstn (Z.to_nat (hi - lo)) (skipn (Z.to_nat lo) l).

(** A non-blank line whose trimmed content starts with a bullet marker. *)
Definition marker_line (line : str) : bool :=
  truthy (strip line) && startswith_any (lstrip line) bullets.

(** A count that is even but not a multiple of 4. *)
Definition two_space_count (n : nat) : bool :=
  ((n mod 2 =? 0) && negb (n mod 4 =? 0))%nat.

(** The verdict of the 2-space detector on a window of lines: collect the
    leading-whitespace count of every marker line; false when there is
    none, else whether some count is even and no multiple of 4. *)
Definition two_space_verdict (window : list str) : bool :=
  match map leading (List.filter marker_line window) with
  | [] => false
  | counts => existsb two_space_count counts
  end.

(** The window the specification describes: 5 lines before the index and
    5 after it, clamped to the document. *)
Definition window_5_5 (lines : list str) (index : Z) : list str :=
  slice lines (Z.max 0 (index - 5))
        (Z.min (Z.of_nat (length lines)) (index + 5 + 1)).

(** The window of the code: 5 lines before the index, the line at the
    index and 4 after it, clamped to the document. *)
Definition window_5_4 (lines : list str) (index : Z) : list str :=
  slice lines (Z.max 0 (index - 5))
        (Z.min (Z.of_nat (length lines)) (index + 4 + 1)).

(** The backward scan of the continuation detector over the lines before
    the index, nearest first, for at most [bound] lines. *)
Fixpoint continuation_scan (bound : nat) (before : list str) : bool :=
  match bound, before with
  | S bound', line :: before' =>
      if startswith_any (lstrip line) bullets then true
      else if truthy (strip line) && (leading line =? 0)%nat then false
      else continuation_scan bound' before'
  | _, _ => false
  end.

(** A fence delimiter: a line that, after trimming, starts with three
    backticks or three tildes. *)
Definition fence_line (line : str) : bool :=
  startswith_any (strip line) fences.

(** An admonition opener: the trimmed line starts with [!!!]. *)
Definition opener_line (line : str) : bool :=
  startswith (lstrip line) (s "!!!").

(** A heading, quote or inline-code opener. *)
Definition special_line (line : str) : bool :=
  startswith_any (lstrip line) [s "`"; s "#"; s ">"].

(** Line [k] lies inside a fenced block: an odd number of delimiters
    stands before it. *)
Definition inside_fence (lines : list str) (k : nat) : bool :=
  Nat.odd (length (List.filter fence_line (firstn k lines))).

(** The scan state after one more line: the assignments of the loop body
    to [in_code_block] and [in_admonition]. *)
Definition advance (st : scan_state) (line : str) : scan_state :=
  if negb (truthy (strip line)) then st
  else if fence_line line then
    {| in_admonition := in_admonition st;
       in_code_block := negb (in_code_block st) |}
  else if in_code_block st then st
  else if opener_line line then
    {| in_admonition := true; in_code_block := in_code_block st |}
  else
    {| in_admonition :=
         if in_admonition st && (leading line =? 0)%nat
            && truthy (lstrip line)
         then false else in_admonition st;
       in_code_block := in_code_block st |}.

(** The scan state the loop has when it reaches line [k]. *)
Definition state_before (lines : list str) (k : nat) : scan_state :=
  fold_left advance (firstn k lines) initial.

(** The reindentation candidacy test of line [k]: an even count, a 2-space
    verdict on the window, and a bullet marker, an ordinal marker or a list
    continuation. *)
Definition candidate (lines : list str) (k : nat) (line : str) : bool :=
  (leading line mod 2 =? 0)%nat
  && two_space_verdict (window_5_4 lines (Z.of_nat k))
  && (startswith_any (lstrip line) bullets
      || numbered (lstrip line)
      || continuation_scan 4 (rev (firstn k lines))).

(** The rewritten form of a line: [(leading / 2) * 4] spaces before the
    trimmed content. *)
Definition reindented (line : str) : str :=
  repeat 32 (leading line / 2 * 4)%nat ++ lstrip line.

(** The lines that are never rewritten, whatever the detectors say. *)
Definition kept (st : scan_state) (line : str) : bool :=
  negb (truthy (strip line))
  || fence_line line
  || in_code_block st
  || opener_line line
  || (leading line =? 0)%nat
  || special_line line
  || in_admonition (advance st line).

(** The line emitted for line [k] in state [st]. *)
Definition emit (lines : list str) (st : scan_state) (k : nat) (line : str)
  : str :=
  if kept st line then line
  else if candidate lines k line then reindented line
  else line.

Fixpoint emit_all (lines : list str) (st : scan_state) (k : nat)
    (todo : list str) : list str :=
  match todo with
  | [] => []
  | line :: todo' =>
      emit lines st k line :: emit_all lines (advance st line) (S k) todo'
  end.

(** A marker line whose indentation is even and no multiple of 4: the
    evidence of a 2-space convention. *)
Definition evidence_line (line : str) : bool :=
  marker_line line && two_space_count (leading line).

(** *** The rendering hooks *)

(** The value of a token of hexadecimal digits, read from the left. *)
Fixpoint hex_value (acc : N) (token : str) : option N :=
  match token with
  | [] => Some acc
  | c :: token' =>
      match hexval c with
      | Some d => hex_value (16 * acc + d) token'
      | None => None
      end
  end.

(** A token decoded as a code point: one or more hexadecimal digits whose
    value is at most U+10FFFF. *)
Definition decode_token (token : str) : option N :=
  match token with
  | [] => None
  | _ :: _ =>
      match hex_value 0 token with
      | Some v => if v <=? 1114111 then Some v else None
      | None => None
      end
  end.

Fixpoint decode_tokens (tokens : list str) : option str :=
  match tokens with
  | [] => Some []
  | token :: tokens' =>
      match decode_token token, decode_tokens tokens' with
      | Some c, Some cs => Some (c :: cs)
      | _, _ => None
      end
  end.

(** The characters of a hyphen-delimited codepoint sequence. *)
Definition decode_sequence (uc : str) : option str :=
  decode_tokens (split 45 uc).

(** The [id] attribute of the opening tag: present only for a non-empty
    element id. *)
Definition id_attribute (id_value : str) : str :=
  match id_value with
  | [] => []
  | _ :: _ => s " id=" ++ [34] ++ id_value ++ [34]
  end.

(** The value of the [class] attribute: the configured class first, then
    the classes of the caller, each after a space. *)
Definition class_value (css_class : str) (caller : list str) : str :=
  css_class ++ flat_map (fun c => s " " ++ c) caller.

(** The remaining attributes, each after a space, in insertion order. *)
Definition extra_attributes (attrs : option (list (str * str))) : str :=
  match attrs with
  | None => []
  | Some items =>
      flat_map (fun kv => s " " ++ fst kv ++ s "=" ++ [34] ++ snd kv ++ [34])
               items
  end.

(** The classes the caller supplies: none, or the content of its list. *)
Definition caller_classes (h : gmap loc (list str)) (classes : option loc)
  : option (list str) :=
  match classes with
  | None => Some []
  | Some l => h !! l
  end.

(** A document of several lines, for the examples. *)
Definition text_of (ls : list str) : str := join [10] ls.

End Spec.

(** * Proofs *)

Import Py Markdown Spec.

(** Replaces the literals of the source by their code points. *)
Ltac literals :=
  repeat match goal with
         | |- context [s ?x] =>
             let v := eval vm_compute in (s x) in change (s x) with v
         | H : context [s ?x] |- _ =>
             let v := eval vm_compute in (s x) in change (s x) with v in H
         end.

(** ** Strings *)

Section Strings.

Lemma lstrip_length (x : str) : (length (lstrip x) <= length x)%nat.
Proof.
  induction x as [|c x IH]; simpl; [lia|].
  destruct (isspace c); simpl; lia.
Qed.

(** The stripped prefix is whitespace, as long as [leading] says. *)
Lemma lstrip_split (x : str) :
  x = firstn (leading x) x ++ lstrip x
  /\ forallb isspace (firstn (leading x) x) = true.
Proof.
  unfold leading. induction x as [|c x [IH1 IH2]]; simpl; [done|].
  pose proof (lstrip_length x) as Hle.
  destruct (isspace c) eqn:Hc; simpl.
  - replace (S (length x) - length (lstrip x))%nat
      with (S (length x - length (lstrip x))) by lia.
    simpl. rewrite Hc, IH2. split; [congruence | done].
  - rewrite Nat.sub_diag. done.
Qed.

Lemma lstrip_head (x : str) c r : lstrip x = c :: r -> isspace c = false.
Proof.
  induction x as [|d x IH]; simpl; [done|].
  destruct (isspace d) eqn:Hd; [exact IH|]. intros [= -> _]. exact Hd.
Qed.

Lemma lstrip_nil (x : str) : lstrip x = [] <-> forallb isspace x = true.
Proof.
  induction x as [|c x IH]; simpl; [done|].
  destruct (isspace c); simpl; [exact IH|]. split; discriminate.
Qed.

Lemma lstrip_spaces_app (p x : str) :
  forallb isspace p = true -> lstrip (p ++ x) = lstrip x.
Proof.
  induction p as [|c p IH]; simpl; [done|].
  intros [Hc Hp]%andb_prop. rewrite Hc. auto.
Qed.

Lemma lstrip_app_nonspace (x y : str) :
  forallb isspace x = false -> lstrip (x ++ y) = lstrip x ++ y.
Proof.
  induction x as [|c x IH]; simpl; [done|].
  destruct (isspace c); simpl; auto.
Qed.

(** A line is blank for [strip] exactly when all of it is whitespace. *)
Lemma strip_truthy (x : str) : truthy (strip x) = negb (forallb isspace x).
Proof.
  unfold strip, rstrip.
  destruct (forallb isspace x) eqn:Hx.
  - apply lstrip_nil in Hx. rewrite Hx. reflexivity.
  - destruct (lstrip x) as [|c r] eqn:Hl.
    { apply lstrip_nil in Hl. congruence. }
    pose proof (lstrip_head _ _ _ Hl) as Hc.
    destruct (lstrip (rev (c :: r))) as [|d r'] eqn:Hr.
    + apply lstrip_nil in Hr. rewrite forallb_forall in Hr.
      rewrite (Hr c) in Hc; [done|]. apply in_rev. rewrite rev_involutive.
      now left.
    + simpl. destruct (rev r' ++ [d]) eqn:E; [|done].
      now destruct (rev r').
Qed.

Lemma startswith_app (x p : str) :
  startswith x p = true <-> exists r, x = p ++ r.
Proof.
  revert x. induction p as [|c p IH]; intros x; simpl.
  - split; eauto.
  - destruct x as [|d x]; [split; [done | intros [r [=]]]|].
    rewrite andb_true_iff, IH, N.eqb_eq. split.
    + intros [-> [r ->]]. eauto.
    + intros [r [= -> ->]]. eauto.
Qed.

(** A marker is never blank: its first character is no whitespace. *)
Lemma bullet_truthy (line : str) :
  startswith_any (lstrip line) bullets = true -> truthy (strip line) = true.
Proof.
  intros H. rewrite strip_truthy.
  destruct (forallb isspace line) eqn:Hs; [|done].
  apply lstrip_nil in Hs. rewrite Hs in H. discriminate.
Qed.

Lemma marker_line_bullet (line : str) :
  marker_line line = startswith_any (lstrip line) bullets.
Proof.
  unfold marker_line.
  destruct (startswith_any (lstrip line) bullets) eqn:H.
  - now rewrite bullet_truthy.
  - apply andb_false_r.
Qed.

(** [split] and [join] on one separator are inverse to each other. *)
Lemma split_not_nil (sep : N) (x : str) : split sep x <> [].
Proof.
  destruct x as [|c x]; simpl; [done|].
  destruct (c =? sep); [done|]. now destruct (split sep x).
Qed.

Lemma join_split (sep : N) (x : str) : join [sep] (split sep x) = x.
Proof.
  induction x as [|c x IH]; simpl; [reflexivity|].
  destruct (N.eqb_spec c sep) as [->|Hc].
  - pose proof (split_not_nil sep x) as Hn.
    simpl. destruct (split sep x) as [|l ls]; [done|].
    simpl in IH |- *. now rewrite IH.
  - pose proof (split_not_nil sep x) as Hn.
    destruct (split sep x) as [|l ls]; [done|].
    rewrite <- IH. simpl. now destruct ls.
Qed.

Lemma split_no_sep (sep : N) (x : str) :
  Forall (fun l => ~ In sep l) (split sep x).
Proof.
  induction x as [|c x IH]; simpl.
  - constructor; [intros []|constructor].
  - destruct (N.eqb_spec c sep) as [->|Hc].
    + constructor; [intros []|exact IH].
    + destruct (split sep x) as [|l ls]; [repeat constructor|].
      * intros [E|[]]. congruence.
      * inversion IH as [|? ? Hl Hls]; subst.
        constructor; [|exact Hls]. intros [E|E]; [congruence|auto].
Qed.

Lemma split_one (sep : N) (l : str) : ~ In sep l -> split sep l = [l].
Proof.
  induction l as [|c l IH]; simpl; [reflexivity|]. intros H.
  destruct (N.eqb_spec c sep) as [->|Hc]; [tauto|].
  rewrite IH by tauto. reflexivity.
Qed.

Lemma split_app_sep (sep : N) (l rest : str) :
  ~ In sep l -> split sep (l ++ sep :: rest) = l :: split sep rest.
Proof.
  induction l as [|c l IH]; simpl; intros H.
  - now rewrite N.eqb_refl.
  - destruct (N.eqb_spec c sep) as [->|Hc]; [tauto|].
    rewrite IH by tauto. reflexivity.
Qed.

Lemma split_join (sep : N) (ls : list str) :
  ls <> [] -> Forall (fun l => ~ In sep l) ls ->
  split sep (join [sep] ls) = ls.
Proof.
  induction ls as [|l ls IH]; [done|]. intros _ H.
  inversion H as [|? ? Hl Hls]; subst.
  destruct ls as [|l' ls].
  - simpl. now apply split_one.
  - change (join [sep] (l :: l' :: ls))
      with (l ++ sep :: join [sep] (l' :: ls)).
    rewrite split_app_sep by exact Hl. f_equal. now apply IH.
Qed.

Lemma lstrip_incl (x : str) (c : N) : In c (lstrip x) -> In c x.
Proof.
  induction x as [|d x IH]; simpl; [done|].
  destruct (isspace d); [right; auto | done].
Qed.

End Strings.

(** ** The detectors *)

Section Detectors.

Lemma range_nil (a b : Z) : (b <= a)%Z -> range a b = [].
Proof. intros H. unfold range. now replace (Z.to_nat (b - a)) with 0%nat by lia. Qed.

Lemma range_cons (a b : Z) : (a < b)%Z -> range a b = a :: range (a + 1) b.
Proof.
  intros H. unfold range.
  replace (Z.to_nat (b - a)) with (S (Z.to_nat (b - (a + 1)))) by lia.
  simpl. f_equal; [lia|].
  rewrite <- seq_shift, map_map. apply map_ext. intros k. lia.
Qed.

Lemma getitem_middle {A} (pre post : list A) (x : A) :
  getitem (pre ++ x :: post) (Z.of_nat (length pre)) = Ok x.
Proof.
  unfold getitem.
  destruct (Z.ltb_spec (Z.of_nat (length pre)) 0) as [?|_]; [lia|].
  destruct (Z.ltb_spec (Z.of_nat (length pre)) 0) as [?|_]; [lia|].
  rewrite Nat2Z.id, list_lookup_middle; done.
Qed.

Lemma getitem_lookup {A} (l : list A) (i : nat) :
  getitem l (Z.of_nat i) = match l !! i with
                           | Some a => Ok a
                           | None => Raise IndexError
                           end.
Proof.
  unfold getitem.
  destruct (Z.ltb_spec (Z.of_nat i) 0) as [?|_]; [lia|].
  destruct (Z.ltb_spec (Z.of_nat i) 0) as [?|_]; [lia|].
  now rewrite Nat2Z.id.
Qed.

(** The loop over a window that lies inside the document collects the
    positive counts of the window's marker lines. *)
Lemma collect_window (w pre post : list str) :
  collect_space_counts (pre ++ w ++ post)
    (range (Z.of_nat (length pre)) (Z.of_nat (length pre + length w)))
  = Ok (List.filter (fun n => (0 <? n)%nat)
          (map leading (List.filter marker_line w))).
Proof.
  revert pre. induction w as [|x w IH]; intros pre.
  - rewrite range_nil by (simpl; lia). reflexivity.
  - rewrite range_cons by (simpl; lia).
    cbn [collect_space_counts app]. rewrite getitem_middle. cbn [bind].
    specialize (IH (pre ++ [x])).
    rewrite <- app_assoc, length_app in IH. cbn [app length] in IH.
    replace (Z.of_nat (length pre) + 1)%Z
      with (Z.of_nat (length pre + 1)) by lia.
    replace (length pre + length (x :: w))%nat
      with (length pre + 1 + length w)%nat by (simpl; lia).
    rewrite IH. cbn [bind List.filter].
    change (truthy (strip x) && startswith_any (lstrip x) bullets)
      with (marker_line x).
    fold (leading x).
    destruct (marker_line x); [|reflexivity].
    cbn [map List.filter]. now destruct (0 <? leading x)%nat.
Qed.

Lemma slice_parts {A} (l : list A) (lo hi : nat) :
  (lo <= hi <= length l)%nat ->
  l = firstn lo l ++ slice l (Z.of_nat lo) (Z.of_nat hi) ++ skipn hi l
  /\ length (firstn lo l) = lo
  /\ length (slice l (Z.of_nat lo) (Z.of_nat hi)) = (hi - lo)%nat.
Proof.
  intros H. unfold slice. rewrite Nat2Z.id.
  replace (Z.to_nat (Z.of_nat hi - Z.of_nat lo)) with (hi - lo)%nat by lia.
  repeat split.
  - rewrite <- (firstn_skipn lo l) at 1. f_equal.
    rewrite <- (firstn_skipn (hi - lo) (skipn lo l)) at 1. f_equal.
    rewrite skipn_skipn. f_equal. lia.
  - rewrite length_firstn. lia.
  - rewrite length_firstn, length_skipn. lia.
Qed.

(** Zero counts never decide, so dropping them changes no verdict. *)
Lemma verdict_positive (counts : list nat) :
  match List.filter (fun n => (0 <? n)%nat) counts with
  | [] => false
  | _ :: _ =>
      existsb (fun n => negb (n mod 4 =? 0)%nat)
        (List.filter (fun n => (n mod 2 =? 0)%nat)
           (List.filter (fun n => (0 <? n)%nat) counts))
  end
  = match counts with
    | [] => false
    | _ :: _ => existsb two_space_count counts
    end.
Proof.
  assert (E : forall cs,
    existsb (fun n => negb (n mod 4 =? 0)%nat)
      (List.filter (fun n => (n mod 2 =? 0)%nat)
         (List.filter (fun n => (0 <? n)%nat) cs))
    = existsb two_space_count cs).
  { induction cs as [|c cs IH]; [reflexivity|]. cbn [List.filter existsb].
    destruct (Nat.ltb_spec 0 c) as [Hc|Hc].
    - cbn [List.filter]. unfold two_space_count at 1.
      destruct (c mod 2 =? 0)%nat; cbn [existsb andb orb]; now rewrite IH.
    - replace c with 0%nat by lia. exact IH. }
  rewrite <- E.
  destruct (List.filter (fun n => (0 <? n)%nat) counts) eqn:F.
  - now destruct counts.
  - destruct counts; [discriminate | reflexivity].
Qed.

(** What [_is_likely_2space_system] computes, for every line array and
    every index: the verdict on the lines [index - 5 .. index + 4]. *)
Lemma likely_2space_window (lines : list str) (index : Z) :
  _is_likely_2space_system lines index
  = Ok (two_space_verdict (window_5_4 lines index)).
Proof.
  unfold _is_likely_2space_system, window_5_4, two_space_verdict.
  replace (index + 4 + 1)%Z with (index + 5)%Z by lia.
  set (lo := Z.max 0 (index - 5)).
  set (hi := Z.min (Z.of_nat (length lines)) (index + 5)).
  destruct (Z.le_gt_cases hi lo) as [Hle|Hlt].
  - rewrite range_nil by exact Hle. unfold slice.
    replace (Z.to_nat (hi - lo)) with 0%nat by lia. reflexivity.
  - assert (Hb : (Z.to_nat lo <= Z.to_nat hi <= length lines)%nat) by lia.
    destruct (slice_parts lines _ _ Hb) as (Hl & Hlen1 & Hlen2).
    rewrite !Z2Nat.id in Hl, Hlen2 by lia.
    pose proof (collect_window (slice lines lo hi)
                  (firstn (Z.to_nat lo) lines) (skipn (Z.to_nat hi) lines))
      as C.
    rewrite <- Hl, Hlen1, Hlen2 in C.
    replace (Z.of_nat (Z.to_nat lo)) with lo in C by lia.
    replace (Z.of_nat (Z.to_nat lo + (Z.to_nat hi - Z.to_nat lo)))
      with hi in C by lia.
    rewrite C. cbn [bind].
    pose proof (verdict_positive
                  (map leading (List.filter marker_line (slice lines lo hi))))
      as V.
    destruct (List.filter _ (map leading _));
      destruct (map leading _); f_equal; exact V.
Qed.

End Detectors.

Section Continuation.

Lemma range_down_nil (a b : Z) : (a <= b)%Z -> range_down a b = [].
Proof.
  intros H. unfold range_down.
  now replace (Z.to_nat (a - b)) with 0%nat by lia.
Qed.

Lemma range_down_cons (a b : Z) :
  (b < a)%Z -> range_down a b = a :: range_down (a - 1) b.
Proof.
  intros H. unfold range_down.
  replace (Z.to_nat (a - b)) with (S (Z.to_nat (a - 1 - b))) by lia.
  simpl. f_equal; [lia|].
  rewrite <- seq_shift, map_map. apply map_ext. intros k. lia.
Qed.

(** One step of the backward loop and one step of the described scan
    agree: a marker is never blank. *)
Lemma scan_step (line : str) (k : bool) :
  (if truthy (strip line)
   then if startswith_any (lstrip line) bullets then true
        else if (length line - length (lstrip line) =? 0)%nat then false
             else k
   else k)
  = (if startswith_any (lstrip line) bullets then true
     else if truthy (strip line) && (leading line =? 0)%nat then false
          else k).
Proof.
  fold (leading line).
  destruct (startswith_any (lstrip line) bullets) eqn:Hb.
  - now rewrite bullet_truthy.
  - destruct (truthy (strip line)); [|reflexivity].
    now destruct (leading line =? 0)%nat.
Qed.

(** The backward loop over the [n] lines before position [length pre]
    (fewer at the start of the document) is the described scan. *)
Lemma scan_back_before (n : nat) (pre post : list str) :
  scan_back (pre ++ post)
    (range_down (Z.of_nat (length pre) - 1)
       (Z.of_nat (length pre) - 1 - Z.of_nat (Nat.min n (length pre))))
  = Ok (continuation_scan n (rev pre)).
Proof.
  revert pre post. induction n as [|n IH]; intros pre post.
  - rewrite range_down_nil by (simpl; lia). reflexivity.
  - induction pre as [|x pre _] using rev_ind.
    + rewrite range_down_nil by (simpl; lia). reflexivity.
    + rewrite length_app, rev_app_distr. cbn [length rev app].
      replace (Nat.min (S n) (length pre + 1))
        with (S (Nat.min n (length pre))) by lia.
      rewrite range_down_cons by lia.
      cbn [scan_back continuation_scan].
      rewrite <- app_assoc. cbn [app].
      replace (Z.of_nat (length pre + 1) - 1)%Z
        with (Z.of_nat (length pre)) by lia.
      rewrite getitem_middle. cbn [bind].
      specialize (IH pre (x :: post)).
      replace (Z.of_nat (length pre) - Z.of_nat (S (Nat.min n (length pre))))%Z
        with (Z.of_nat (length pre) - 1
              - Z.of_nat (Nat.min n (length pre)))%Z by lia.
      rewrite IH.
      pose proof (scan_step x (continuation_scan n (rev pre))) as E.
      destruct (truthy (strip x));
        destruct (startswith_any (lstrip x) bullets);
        try destruct (length x - length (lstrip x) =? 0)%nat eqn:L;
        cbn [andb] in E |- *; try rewrite <- E; reflexivity.
Qed.

(** What [_is_list_continuation] computes at an index of the line array:
    the described scan over at most 4 lines, nearest first. *)
Lemma list_continuation_scan (lines : list str) (index : nat) :
  (index <= length lines)%nat ->
  _is_list_continuation lines (Z.of_nat index)
  = Ok (continuation_scan 4 (rev (firstn index lines))).
Proof.
  intros H. unfold _is_list_continuation.
  destruct (Z.eqb_spec (Z.of_nat index) 0) as [E|E].
  - replace index with 0%nat by lia. reflexivity.
  - pose proof (scan_back_before 4 (firstn index lines) (skipn index lines))
      as S4.
    rewrite firstn_skipn, length_firstn in S4.
    replace (Nat.min index (length lines)) with index in S4 by lia.
    replace (Z.max (-1) (Z.of_nat index - 5))
      with (Z.of_nat index - 1 - Z.of_nat (Nat.min 4 index))%Z by lia.
    exact S4.
Qed.

(** Before the start of the document and at its start there is nothing to
    scan. *)
Lemma list_continuation_nonpositive (lines : list str) (index : Z) :
  (index <= 0)%Z -> _is_list_continuation lines index = Ok false.
Proof.
  intros H. unfold _is_list_continuation.
  destruct (Z.eqb_spec index 0); [reflexivity|].
  now rewrite range_down_nil by lia.
Qed.

(** The same for an [int] index, negative ones included. *)
Lemma list_continuation_scan_int (lines : list str) (index : Z) :
  (index <= Z.of_nat (length lines))%Z ->
  _is_list_continuation lines index
  = Ok (continuation_scan 4 (rev (firstn (Z.to_nat index) lines))).
Proof.
  intros H. destruct (Z.le_gt_cases index 0) as [Hn|Hp].
  - rewrite list_continuation_nonpositive by exact Hn.
    now replace (Z.to_nat index) with 0%nat by lia.
  - rewrite <- (Z2Nat.id index) at 1 by lia.
    apply list_continuation_scan. lia.
Qed.

End Continuation.

(** ** The pre-pass, line by line *)

Section Normalizer.

Lemma reindent_test_value (lines : list str) (k : nat) (line : str) :
  (k <= length lines)%nat ->
  reindent_test lines k (leading line) (lstrip line)
  = Ok (candidate lines k line).
Proof.
  intros H. unfold reindent_test, candidate.
  rewrite likely_2space_window. cbn [bind].
  destruct (leading line mod 2 =? 0)%nat; [|reflexivity].
  destruct (two_space_verdict _); [|reflexivity].
  destruct (startswith_any (lstrip line) bullets); [reflexivity|].
  destruct (numbered (lstrip line)); [reflexivity|].
  now rewrite list_continuation_scan.
Qed.

(** The loop body computes [advance] and [emit]. *)
Lemma process_line_value (lines : list str) (st : scan_state) (k : nat)
    (line : str) :
  (k <= length lines)%nat ->
  process_line lines st k line
  = Ok (advance st line, emit lines st k line).
Proof.
  intros H. unfold process_line, advance, emit, kept, advance.
  destruct (truthy (strip line)) eqn:Hb; cbn [negb orb]; [|reflexivity].
  unfold fence_line.
  destruct (startswith_any (strip line) fences); cbn [orb]; [reflexivity|].
  destruct (in_code_block st) eqn:Hc; cbn [orb].
  { destruct st; simpl in Hc; subst; reflexivity. }
  unfold opener_line.
  destruct (startswith (lstrip line) (s "!!!")); cbn [orb]; [reflexivity|].
  fold (leading line). unfold special_line.
  cbn [in_admonition].
  destruct ((leading line =? 0)%nat
            || startswith_any (lstrip line) [s "`"; s "#"; s ">"]
            || (if in_admonition st && (leading line =? 0)%nat
                   && truthy (lstrip line)
                then false else in_admonition st)) eqn:Hk.
  - reflexivity.
  - rewrite reindent_test_value by exact H. cbn [bind].
    unfold reindented. now destruct (candidate lines k line).
Qed.

Lemma process_lines_value (lines : list str) (st : scan_state) (k : nat)
    (todo : list str) :
  (k + length todo <= length lines)%nat ->
  process_lines lines st k todo = Ok (emit_all lines st k todo).
Proof.
  revert st k. induction todo as [|line todo IH]; intros st k H.
  - reflexivity.
  - cbn [process_lines emit_all]. cbn [length] in H.
    rewrite process_line_value by lia. cbn [bind fst snd].
    rewrite IH by lia. reflexivity.
Qed.

Lemma emit_all_length (lines : list str) st k todo :
  length (emit_all lines st k todo) = length todo.
Proof.
  revert st k. induction todo as [|line todo IH]; intros st k;
    simpl; [reflexivity|]. now rewrite IH.
Qed.

Lemma emit_all_lookup (lines : list str) st k todo (j : nat) (line : str) :
  todo !! j = Some line ->
  emit_all lines st k todo !! j
  = Some (emit lines (fold_left advance (firstn j todo) st) (k + j) line).
Proof.
  revert st k j. induction todo as [|x todo IH]; intros st k j H.
  - discriminate.
  - destruct j as [|j]; simpl in H |- *.
    + injection H as ->. now rewrite Nat.add_0_r.
    + rewrite (IH _ _ _ H).
      now replace (S k + j)%nat with (k + S j)%nat by lia.
Qed.

Lemma emit_no_newline (lines : list str) st k (line : str) :
  ~ In 10 line -> ~ In 10 (emit lines st k line).
Proof.
  intros H. unfold emit, reindented.
  destruct (kept st line); [exact H|].
  destruct (candidate lines k line); [|exact H].
  intros [Hr|Hl]%in_app_or.
  - apply repeat_spec in Hr. discriminate.
  - now apply H, lstrip_incl.
Qed.

Lemma emit_all_no_newline (lines : list str) st k (todo : list str) :
  Forall (fun l => ~ In 10 l) todo ->
  Forall (fun l => ~ In 10 l) (emit_all lines st k todo).
Proof.
  intros H. revert st k. induction H as [|l todo Hl _ IH]; intros st k.
  - constructor.
  - simpl. constructor; [now apply emit_no_newline | apply IH].
Qed.

(** The pre-pass never raises; its result is the emitted lines joined by
    newlines, and splits back into exactly these lines. *)
Lemma preprocess_value (content : str) :
  _preprocess_list_indentation content
  = Ok (join [10] (emit_all (split 10 content) initial 0 (split 10 content)))
  /\ split 10 (join [10] (emit_all (split 10 content) initial 0
                                   (split 10 content)))
     = emit_all (split 10 content) initial 0 (split 10 content).
Proof.
  unfold _preprocess_list_indentation. split.
  - rewrite process_lines_value by (simpl; lia). reflexivity.
  - apply split_join.
    + pose proof (split_not_nil 10 content) as Hn.
      destruct (split 10 content); [done|]. discriminate.
    + apply emit_all_no_newline, split_no_sep.
Qed.

(** Line [k] of the result is what the loop emits for line [k] of the
    input in the state it has there. *)
Lemma preprocess_line (content : str) (k : nat) (line : str) :
  split 10 content !! k = Some line ->
  exists out,
    _preprocess_list_indentation content = Ok out
    /\ length (split 10 out) = length (split 10 content)
    /\ split 10 out !! k
       = Some (emit (split 10 content)
                    (state_before (split 10 content) k) k line).
Proof.
  intros H. destruct (preprocess_value content) as [E S].
  eexists. split; [exact E|]. rewrite S. split.
  - apply emit_all_length.
  - now rewrite (emit_all_lookup _ _ _ _ _ _ H).
Qed.

End Normalizer.

(** ** The scan state *)

Section ScanState.

Lemma rstrip_prefix (x : str) : exists r, x = rstrip x ++ r.
Proof.
  unfold rstrip. destruct (lstrip_split (rev x)) as [E _].
  exists (rev (firstn (leading (rev x)) (rev x))).
  rewrite <- rev_app_distr, <- E. now rewrite rev_involutive.
Qed.

(** What the trimmed line starts with, the left-trimmed line starts with. *)
Lemma strip_startswith (x p : str) :
  startswith (strip x) p = true -> startswith (lstrip x) p = true.
Proof.
  rewrite !startswith_app. intros [r E]. unfold strip in E.
  destruct (rstrip_prefix (lstrip x)) as [r' E'].
  exists (r ++ r'). rewrite E' at 1. rewrite E. now rewrite <- app_assoc.
Qed.

Lemma blank_not_fence (line : str) :
  truthy (strip line) = false -> fence_line line = false.
Proof.
  unfold fence_line. now destruct (strip line).
Qed.

Lemma opener_not_fence (line : str) :
  opener_line line = true -> fence_line line = false.
Proof.
  unfold opener_line, fence_line, startswith_any, fences. intros Ho.
  cbn [existsb].
  destruct (startswith (strip line) (s "```")) eqn:F1.
  { apply strip_startswith in F1. destruct (lstrip line) as [|c r]; [done|].
    literals. cbn [startswith] in Ho, F1.
    destruct (N.eqb_spec 33 c); [subst; done | done]. }
  destruct (startswith (strip line) (s "~~~")) eqn:F2; [|reflexivity].
  apply strip_startswith in F2. destruct (lstrip line) as [|c r]; [done|].
  literals. cbn [startswith] in Ho, F2.
  destruct (N.eqb_spec 33 c); [subst; done | done].
Qed.

Lemma opener_truthy (line : str) :
  opener_line line = true -> truthy (strip line) = true.
Proof.
  unfold opener_line. intros H. rewrite strip_truthy.
  destruct (forallb isspace line) eqn:Hs; [|done].
  apply lstrip_nil in Hs. rewrite Hs in H. discriminate.
Qed.

Lemma state_before_succ (lines : list str) (k : nat) (line : str) :
  lines !! k = Some line ->
  state_before lines (S k) = advance (state_before lines k) line.
Proof.
  intros H. unfold state_before.
  rewrite (take_S_r _ _ _ H), fold_left_app. reflexivity.
Qed.

Lemma advance_code (st : scan_state) (line : str) :
  in_code_block (advance st line)
  = xorb (in_code_block st) (fence_line line).
Proof.
  unfold advance.
  destruct (truthy (strip line)) eqn:Hb; cbn [negb].
  - destruct (fence_line line); cbn [in_code_block].
    + now destruct (in_code_block st).
    + destruct (in_code_block st) eqn:Hc; [now rewrite Hc|].
      now destruct (opener_line line).
  - rewrite (blank_not_fence _ Hb). now destruct (in_code_block st).
Qed.

Lemma inside_fence_succ (lines : list str) (k : nat) (line : str) :
  lines !! k = Some line ->
  inside_fence lines (S k) = xorb (inside_fence lines k) (fence_line line).
Proof.
  intros H. unfold inside_fence.
  rewrite (take_S_r _ _ _ H), List.filter_app, length_app. cbn [List.filter].
  destruct (fence_line line); cbn [length].
  - rewrite Nat.add_1_r, Nat.odd_succ, <- Nat.negb_odd.
    now destruct (Nat.odd _).
  - rewrite Nat.add_0_r. now destruct (Nat.odd _).
Qed.

(** [in_code_block] is the parity of the delimiters met so far. *)
Lemma in_code_block_parity (lines : list str) (k : nat) :
  in_code_block (state_before lines k) = inside_fence lines k.
Proof.
  induction k as [|k IH]; [reflexivity|].
  destruct (lines !! k) as [line|] eqn:H.
  - rewrite (state_before_succ _ _ _ H), (inside_fence_succ _ _ _ H).
    now rewrite advance_code, IH.
  - apply lookup_ge_None_1 in H.
    unfold state_before, inside_fence in *.
    rewrite !firstn_all2 by lia. rewrite !firstn_all2 in IH by lia.
    exact IH.
Qed.

(** A line met in an admonition that is blank or indented leaves the
    admonition open. *)
Lemma advance_admonition (st : scan_state) (line : str) :
  in_admonition st = true ->
  truthy (strip line) = false \/ leading line <> 0%nat ->
  in_admonition (advance st line) = true.
Proof.
  intros Ha Hl. unfold advance.
  destruct (truthy (strip line)); cbn [negb]; [|exact Ha].
  destruct (fence_line line); [exact Ha|].
  destruct (in_code_block st); [exact Ha|].
  destruct (opener_line line); [reflexivity|].
  cbn [in_admonition]. rewrite Ha.
  destruct Hl as [?|Hl]; [done|].
  destruct (Nat.eqb_spec (leading line) 0); [done | reflexivity].
Qed.

(** A line met in an admonition is never rewritten. *)
Lemma kept_in_admonition (st : scan_state) (line : str) :
  in_admonition st = true -> kept st line = true.
Proof.
  intros Ha. unfold kept.
  destruct (truthy (strip line)) eqn:Hb; cbn [negb orb]; [|reflexivity].
  destruct (fence_line line) eqn:Hf; cbn [orb]; [reflexivity|].
  destruct (in_code_block st) eqn:Hc; cbn [orb]; [reflexivity|].
  destruct (opener_line line) eqn:Ho; cbn [orb]; [reflexivity|].
  destruct (Nat.eqb_spec (leading line) 0) as [Hz|Hz]; cbn [orb];
    [reflexivity|].
  rewrite advance_admonition; [apply orb_true_r | exact Ha | now right].
Qed.

(** An opener met outside a fenced block opens an admonition. *)
Lemma advance_opener (st : scan_state) (line : str) :
  opener_line line = true -> in_code_block st = false ->
  in_admonition (advance st line) = true.
Proof.
  intros Ho Hc. unfold advance.
  rewrite (opener_truthy _ Ho), (opener_not_fence _ Ho), Hc, Ho.
  reflexivity.
Qed.

(** A non-blank line without indentation that is met outside a fenced
    block and is neither a delimiter nor an opener ends the admonition. *)
Lemma advance_clear (st : scan_state) (line : str) :
  truthy (strip line) = true -> leading line = 0%nat ->
  fence_line line = false -> in_code_block st = false ->
  opener_line line = false ->
  in_admonition (advance st line) = false.
Proof.
  intros Hb Hz Hf Hc Ho. unfold advance.
  rewrite Hb, Hf, Hc, Ho. cbn [negb in_admonition]. rewrite Hz.
  destruct (in_admonition st); [|reflexivity].
  cbn [andb Nat.eqb].
  destruct (lstrip line) eqn:E; [|reflexivity].
  apply lstrip_nil in E. rewrite strip_truthy, E in Hb. discriminate.
Qed.

End ScanState.

(** ** Fixed points of the pre-pass *)

Section FixedPoints.

(** The verdict on a window is the presence of an evidence line. *)
Lemma verdict_evidence (w : list str) :
  two_space_verdict w = existsb evidence_line w.
Proof.
  unfold two_space_verdict.
  assert (E : existsb two_space_count (map leading (List.filter marker_line w))
              = existsb evidence_line w).
  { induction w as [|x w IH]; [reflexivity|].
    cbn [List.filter existsb]. unfold evidence_line at 1.
    destruct (marker_line x); cbn [map existsb andb orb]; now rewrite IH. }
  rewrite <- E. now destruct (map leading _).
Qed.

Lemma window_self (lines : list str) (k : nat) (line : str) :
  lines !! k = Some line -> line ∈ window_5_4 lines (Z.of_nat k).
Proof.
  intros H. pose proof (lookup_lt_Some _ _ _ H) as Hk.
  unfold window_5_4, slice. apply list_elem_of_lookup.
  exists (k - Z.to_nat (Z.max 0 (Z.of_nat k - 5)))%nat.
  rewrite lookup_take_lt by lia. rewrite lookup_drop. rewrite <- H.
  f_equal. lia.
Qed.

Lemma window_incl (lines : list str) (index : Z) (line : str) :
  line ∈ window_5_4 lines index -> line ∈ lines.
Proof.
  unfold window_5_4, slice. intros [j Hj]%list_elem_of_lookup.
  apply lookup_take_Some in Hj as [Hj _]. rewrite lookup_drop in Hj.
  eapply list_elem_of_lookup_2, Hj.
Qed.

Lemma evidence_verdict (lines : list str) (k : nat) (line : str) :
  lines !! k = Some line -> evidence_line line = true ->
  two_space_verdict (window_5_4 lines (Z.of_nat k)) = true.
Proof.
  intros H He. rewrite verdict_evidence. apply existsb_exists.
  exists line. split; [|exact He]. apply list_elem_of_In.
  now apply window_self.
Qed.

(** Without an evidence line no window gives a 2-space verdict. *)
Lemma canonical_verdict (lines : list str) (index : Z) :
  Forall (fun l => evidence_line l = false) lines ->
  two_space_verdict (window_5_4 lines index) = false.
Proof.
  intros Hc. rewrite verdict_evidence.
  destruct (existsb evidence_line _) eqn:E; [|reflexivity].
  apply existsb_exists in E as (x & Hx & He).
  apply list_elem_of_In, window_incl in Hx.
  rewrite Forall_forall in Hc. rewrite (Hc _ Hx) in He. discriminate.
Qed.

Lemma emit_canonical (lines : list str) st k (line : str) :
  Forall (fun l => evidence_line l = false) lines ->
  emit lines st k line = line.
Proof.
  intros Hc. unfold emit, candidate. rewrite (canonical_verdict _ _ Hc).
  rewrite andb_false_r. cbn [andb]. now destruct (kept st line).
Qed.

Lemma emit_all_canonical (lines : list str) st k (todo : list str) :
  Forall (fun l => evidence_line l = false) lines ->
  emit_all lines st k todo = todo.
Proof.
  intros Hc. revert st k. induction todo as [|x todo IH]; intros st k;
    [reflexivity|].
  cbn [emit_all]. now rewrite emit_canonical, IH.
Qed.

(** Text without an evidence line is returned as it is. *)
Lemma preprocess_canonical (content : str) :
  Forall (fun l => evidence_line l = false) (split 10 content) ->
  _preprocess_list_indentation content = Ok content.
Proof.
  intros Hc. destruct (preprocess_value content) as [E _]. rewrite E.
  now rewrite emit_all_canonical, join_split.
Qed.

(** The rewritten form of a non-blank line: its indentation is a multiple
    of 4 and its content is kept. *)
Lemma reindented_leading (line : str) :
  truthy (strip line) = true ->
  leading (reindented line) = (leading line / 2 * 4)%nat
  /\ lstrip (reindented line) = lstrip line.
Proof.
  intros Hb. unfold reindented.
  assert (Hsp : forall n, forallb isspace (repeat 32 n) = true).
  { induction n; [reflexivity|]. simpl. exact IHn. }
  assert (Hl : lstrip (lstrip line) = lstrip line).
  { destruct (lstrip line) as [|c r] eqn:E; [reflexivity|].
    simpl. now rewrite (lstrip_head _ _ _ E). }
  assert (Hs : lstrip (repeat 32 (leading line / 2 * 4) ++ lstrip line)
               = lstrip line).
  { now rewrite lstrip_spaces_app. }
  split; [|exact Hs].
  unfold leading at 1. rewrite Hs, length_app, repeat_length. lia.
Qed.

Lemma reindented_not_evidence (line : str) :
  truthy (strip line) = true -> evidence_line (reindented line) = false.
Proof.
  intros Hb. unfold evidence_line, two_space_count.
  destruct (reindented_leading line Hb) as [-> _].
  rewrite (Nat.Div0.mod_mul (leading line / 2) 4).
  cbn [Nat.eqb negb]. now rewrite !andb_false_r.
Qed.

(** An evidence line met outside fenced blocks and admonitions is
    rewritten. *)
Lemma evidence_not_kept (st : scan_state) (line : str) :
  evidence_line line = true ->
  fence_line line = false -> opener_line line = false ->
  in_code_block st = false -> in_admonition st = false ->
  kept st line = false.
Proof.
  unfold evidence_line. rewrite marker_line_bullet.
  intros [Hm Ht]%andb_prop Hf Ho Hc Ha.
  pose proof (bullet_truthy _ Hm) as Hb.
  unfold kept, advance. rewrite Hb, Hf, Ho, Hc, Ha.
  cbn [negb orb andb in_admonition].
  assert (Hz : (leading line =? 0)%nat = false).
  { destruct (Nat.eqb_spec (leading line) 0) as [E|]; [|reflexivity].
    rewrite E in Ht. discriminate. }
  rewrite Hz. cbn [orb]. rewrite orb_false_r.
  unfold special_line. unfold startswith_any, bullets in Hm.
  destruct (lstrip line) as [|c r]; [discriminate|].
  literals. cbn [existsb startswith] in Hm |- *.
  destruct (N.eqb_spec 42 c) as [<-|]; [reflexivity|].
  destruct (N.eqb_spec 45 c) as [<-|]; [reflexivity|].
  destruct (N.eqb_spec 43 c) as [<-|]; [reflexivity|].
  discriminate.
Qed.

Lemma evidence_candidate (lines : list str) (k : nat) (line : str) :
  lines !! k = Some line -> evidence_line line = true ->
  candidate lines k line = true.
Proof.
  intros H He. unfold candidate.
  rewrite (evidence_verdict _ _ _ H He).
  unfold evidence_line, two_space_count in He.
  rewrite marker_line_bullet in He.
  apply andb_prop in He as [Hm [H2 _]%andb_prop].
  now rewrite Hm, H2.
Qed.

Lemma advance_unshielded (st : scan_state) (line : str) :
  fence_line line = false -> opener_line line = false ->
  in_code_block st = false -> in_admonition st = false ->
  advance st line = st.
Proof.
  intros Hf Ho Hc Ha. unfold advance. rewrite Hf, Ho, Hc, Ha.
  destruct (truthy (strip line)); cbn [negb andb]; [|reflexivity].
  destruct st; simpl in *; now subst.
Qed.

Lemma state_unshielded (lines : list str) (st : scan_state) :
  Forall (fun l => fence_line l = false /\ opener_line l = false) lines ->
  in_code_block st = false -> in_admonition st = false ->
  fold_left advance lines st = st.
Proof.
  induction 1 as [|x lines [Hf Ho] _ IH]; intros Hc Ha; [reflexivity|].
  cbn [fold_left]. rewrite advance_unshielded by assumption. now apply IH.
Qed.

(** An evidence line is neither a delimiter nor an opener. *)
Lemma evidence_plain (line : str) :
  evidence_line line = true ->
  fence_line line = false /\ opener_line line = false.
Proof.
  unfold evidence_line. rewrite marker_line_bullet.
  intros [Hm _]%andb_prop. unfold startswith_any, bullets in Hm.
  assert (Hhead : exists c r, lstrip line = c :: r
                              /\ (c = 42 \/ c = 45 \/ c = 43)).
  { destruct (lstrip line) as [|c r]; [discriminate|].
    exists c, r. split; [reflexivity|].
    literals. cbn [existsb startswith] in Hm.
    destruct (N.eqb_spec 42 c); [auto|].
    destruct (N.eqb_spec 45 c); [auto|].
    destruct (N.eqb_spec 43 c); [auto|]. discriminate. }
  destruct Hhead as (c & r & Hl & Hc). split.
  - unfold fence_line, startswith_any, fences. cbn [existsb].
    destruct (startswith (strip line) (s "```")) eqn:F1.
    { apply strip_startswith in F1. rewrite Hl in F1. literals.
      cbn [startswith] in F1. destruct (N.eqb_spec 96 c); [lia|done]. }
    destruct (startswith (strip line) (s "~~~")) eqn:F2; [|reflexivity].
    apply strip_startswith in F2. rewrite Hl in F2. literals.
    cbn [startswith] in F2. destruct (N.eqb_spec 126 c); [lia|done].
  - unfold opener_line. rewrite Hl. literals. cbn [startswith].
    destruct (N.eqb_spec 33 c); [lia|reflexivity].
Qed.

(** When every evidence line is met outside fenced blocks and
    admonitions, the result has no evidence line. *)
Lemma emit_all_exposed (lines : list str) :
  (forall k line, lines !! k = Some line -> evidence_line line = true ->
                  inside_fence lines k = false
                  /\ in_admonition (state_before lines k) = false) ->
  Forall (fun l => evidence_line l = false)
         (emit_all lines initial 0 lines).
Proof.
  intros Hu. apply Forall_lookup_2. intros k out Hk.
  assert (Hlt : (k < length lines)%nat).
  { apply lookup_lt_Some in Hk. now rewrite emit_all_length in Hk. }
  destruct (lookup_lt_is_Some_2 _ _ Hlt) as [line Hline].
  rewrite (emit_all_lookup _ _ _ _ _ _ Hline) in Hk.
  injection Hk as <-. cbn [Nat.add].
  fold (state_before lines k).
  destruct (evidence_line line) eqn:He.
  - destruct (Hu _ _ Hline He) as [Hc Ha].
    destruct (evidence_plain _ He) as [Hf Ho].
    rewrite <- in_code_block_parity in Hc.
    unfold emit.
    rewrite (evidence_not_kept _ line He Hf Ho Hc Ha).
    rewrite (evidence_candidate _ _ _ Hline He).
    apply reindented_not_evidence.
    unfold evidence_line in He. rewrite marker_line_bullet in He.
    apply andb_prop in He as [Hm _]. now apply bullet_truthy.
  - unfold emit. destruct (kept _ line) eqn:Hkept; [exact He|].
    destruct (candidate lines k line); [|exact He].
    apply reindented_not_evidence.
    unfold kept in Hkept. now destruct (truthy (strip line)).
Qed.

(** Without delimiters and openers the scan state never changes, so every
    line is met outside fenced blocks and admonitions. *)
Lemma unshielded_exposed (lines : list str) (k : nat) :
  Forall (fun l => fence_line l = false /\ opener_line l = false) lines ->
  inside_fence lines k = false
  /\ in_admonition (state_before lines k) = false.
Proof.
  intros Hu. rewrite <- in_code_block_parity. unfold state_before.
  rewrite state_unshielded; [split; reflexivity| |reflexivity..].
  now apply Forall_take.
Qed.

End FixedPoints.

(** ** The rendering hooks *)

Section Hooks.

Lemma hexval_range (c d : N) :
  hexval c = Some d ->
  (48 <= c <= 57 \/ 97 <= c <= 102 \/ 65 <= c <= 70) /\ d < 16.
Proof.
  unfold hexval.
  destruct (N.leb_spec 48 c), (N.leb_spec c 57); cbn [andb];
    try (intros [= <-]; lia);
    destruct (N.leb_spec 97 c), (N.leb_spec c 102); cbn [andb];
    try (intros [= <-]; lia);
    destruct (N.leb_spec 65 c), (N.leb_spec c 70); cbn [andb];
    try (intros [= <-]; lia); discriminate.
Qed.

Lemma hex_value_chars (token : str) (acc v : N) :
  hex_value acc token = Some v ->
  Forall (fun c => 48 <= c <= 57 \/ 97 <= c <= 102 \/ 65 <= c <= 70) token.
Proof.
  revert acc. induction token as [|c token IH]; intros acc H; [constructor|].
  cbn [hex_value] in H. destruct (hexval c) as [d|] eqn:Hc; [|discriminate].
  constructor; [exact (proj1 (hexval_range _ _ Hc)) | eauto].
Qed.

(** On a run of hexadecimal digits the digit loop of [int] reads all of it
    and computes its value. *)
Lemma hex_digits_value (token : str) (acc v : N) (read : nat) :
  hex_value acc token = Some v ->
  hex_digits token false (Z.of_N acc) read
  = Some (Z.of_N v, (read + length token)%nat, []).
Proof.
  revert acc read. induction token as [|c token IH]; intros acc read H.
  - injection H as ->. cbn. now rewrite Nat.add_0_r.
  - cbn [hex_value] in H. destruct (hexval c) as [d|] eqn:Hc; [|discriminate].
    cbn [hex_digits]. destruct (hexval_range _ _ Hc) as [Hr _].
    destruct (N.eqb_spec c 95) as [->|_]; [lia|]. rewrite Hc.
    replace (16 * Z.of_N acc + Z.of_N d)%Z with (Z.of_N (16 * acc + d)) by lia.
    rewrite (IH _ _ H). cbn [length].
    now replace (S read + length token)%nat
      with (read + S (length token))%nat by lia.
Qed.

Lemma to_ascii_hex (token : str) :
  Forall (fun c => 48 <= c <= 57 \/ 97 <= c <= 102 \/ 65 <= c <= 70) token ->
  to_ascii token = token /\ existsb (N.eqb 0) token = false.
Proof.
  intros H. unfold to_ascii.
  assert (forallb (fun c => c <? 128) token = true) as ->.
  { induction H as [|c token Hc _ IH]; [reflexivity|]. cbn.
    rewrite IH. destruct (N.ltb_spec c 128); [reflexivity | lia]. }
  split; [reflexivity|].
  induction H as [|c token Hc _ IH]; [reflexivity|]. cbn [existsb].
  rewrite IH. destruct (N.eqb_spec 0 c); [lia | reflexivity].
Qed.

(** [int(token, 16)] of one or more hexadecimal digits is their value. *)
Lemma int16_hex (token : str) (v : N) :
  token <> [] -> hex_value 0 token = Some v -> int16 token = Ok (Z.of_N v).
Proof.
  intros Hne Hv. pose proof (hex_value_chars _ _ _ Hv) as Hc.
  destruct (to_ascii_hex _ Hc) as [Ha Hz].
  unfold int16. rewrite Ha, Hz.
  destruct token as [|c token]; [done|].
  inversion Hc as [|? ? Hc1 Hcs]; subst.
  assert (Hsp : c_isspace c = false).
  { unfold c_isspace.
    destruct (N.leb_spec 9 c), (N.leb_spec c 13), (N.eqb_spec c 32);
      cbn; try reflexivity; lia. }
  cbn [skip_c_space]. rewrite Hsp. cbn [skip_sign].
  destruct (N.eqb_spec c 43); [lia|]. destruct (N.eqb_spec c 45); [lia|].
  assert (Hp : skip_prefix (c :: token) = c :: token).
  { destruct token as [|d token]; [reflexivity|]. cbn [skip_prefix].
    inversion Hcs as [|? ? Hd1 _]; subst.
    destruct (N.eqb_spec d 120); [lia|]. destruct (N.eqb_spec d 88); [lia|].
    now rewrite andb_false_r. }
  rewrite Hp. cbn [startswith].
  destruct (N.eqb_spec 95 c); [lia|]. cbn [andb].
  pose proof (hex_digits_value _ _ _ 0 Hv) as Hd. cbn [Z.of_N] in Hd.
  rewrite Hd. cbn [Nat.add length Nat.eqb skip_c_space]. f_equal. lia.
Qed.

Lemma chr_code_point (v : N) : v <= 1114111 -> chr (Z.of_N v) = Ok v.
Proof.
  intros H. unfold chr.
  destruct (Z.ltb_spec (Z.of_N v) (-2147483648)); [lia|].
  destruct (Z.ltb_spec 2147483647 (Z.of_N v)); [lia|].
  destruct (Z.ltb_spec (Z.of_N v) 0); [lia|].
  destruct (Z.ltb_spec 1114111 (Z.of_N v)); [lia|].
  cbn [orb]. now rewrite N2Z.id.
Qed.

Lemma chars_of_tokens (tokens : list str) (cps : str) :
  decode_tokens tokens = Some cps ->
  chars_of_items tokens = Ok (map (fun c => [c]) cps).
Proof.
  revert cps. induction tokens as [|token tokens IH]; intros cps H.
  - injection H as <-. reflexivity.
  - cbn [decode_tokens] in H.
    destruct (decode_token token) as [c|] eqn:Hc; [|discriminate].
    destruct (decode_tokens tokens) as [cs|]; [|discriminate].
    injection H as <-. unfold decode_token in Hc.
    destruct token as [|t0 token]; [discriminate|].
    destruct (hex_value 0 (t0 :: token)) as [v|] eqn:Hv; [|discriminate].
    destruct (N.leb_spec v 1114111); [|discriminate]. injection Hc as ->.
    assert (Hne : t0 :: token <> []) by discriminate.
    cbn [chars_of_items]. rewrite (int16_hex _ _ Hne Hv).
    cbn [bind]. rewrite chr_code_point by assumption. cbn [bind].
    now rewrite (IH _ eq_refl).
Qed.

Lemma join_chars (cps : str) : join [] (map (fun c => [c]) cps) = cps.
Proof.
  induction cps as [|c cps IH]; [reflexivity|].
  cbn [map]. destruct cps as [|c' cps]; [reflexivity|].
  change (join [] ([c] :: map (fun c => [c]) (c' :: cps)))
    with ([c] ++ [] ++ join [] (map (fun c => [c]) (c' :: cps))).
  now rewrite IH.
Qed.

Lemma join_space (x : str) (xs : list str) :
  join (s " ") (x :: xs) = x ++ flat_map (fun c => s " " ++ c) xs.
Proof.
  revert x. induction xs as [|y xs IH]; intros x.
  - cbn. now rewrite app_nil_r.
  - change (join (s " ") (x :: y :: xs))
      with (x ++ s " " ++ join (s " ") (y :: xs)).
    rewrite IH. cbn [flat_map]. now rewrite <- !app_assoc.
Qed.

End Hooks.

(** ** Fenced blocks and admonitions *)

Section Containment.

(** After an opening delimiter every position up to the next delimiter
    lies inside the block. *)
Lemma inside_after_opening (lines : list str) (i k : nat) (opening : str) :
  lines !! i = Some opening -> fence_line opening = true ->
  inside_fence lines i = false ->
  (forall m lm, (i < m < k)%nat -> lines !! m = Some lm ->
                fence_line lm = false) ->
  (i < k <= length lines)%nat ->
  inside_fence lines k = true.
Proof.
  intros Hi Hf Hout. induction k as [|k IH]; intros Hbetween Hk; [lia|].
  destruct (Nat.eq_dec k i) as [->|Hne].
  - now rewrite (inside_fence_succ _ _ _ Hi), Hout, Hf.
  - destruct (lookup_lt_is_Some_2 lines k ltac:(lia)) as [lk Hlk].
    rewrite (inside_fence_succ _ _ _ Hlk).
    rewrite (Hbetween k lk ltac:(lia) Hlk).
    rewrite IH; [reflexivity| |lia].
    intros m lm Hm. apply Hbetween. lia.
Qed.

Lemma emit_inside_fence (lines : list str) (k : nat) (line : str) :
  inside_fence lines k = true ->
  emit lines (state_before lines k) k line = line.
Proof.
  intros H. unfold emit, kept. rewrite in_code_block_parity, H.
  now rewrite !orb_true_r.
Qed.

(** After an opener met outside a fenced block the admonition stays open
    as long as every line is blank or indented. *)
Lemma admonition_open (lines : list str) (a k : nat) (opener : str) :
  lines !! a = Some opener -> opener_line opener = true ->
  inside_fence lines a = false ->
  (forall m lm, (a < m < k)%nat -> lines !! m = Some lm ->
                truthy (strip lm) = false \/ (0 < leading lm)%nat) ->
  (a < k <= length lines)%nat ->
  in_admonition (state_before lines k) = true.
Proof.
  intros Ha Ho Hout. induction k as [|k IH]; intros Hbetween Hk; [lia|].
  destruct (Nat.eq_dec k a) as [->|Hne].
  - rewrite (state_before_succ _ _ _ Ha).
    apply advance_opener; [exact Ho|]. now rewrite in_code_block_parity.
  - destruct (lookup_lt_is_Some_2 lines k ltac:(lia)) as [lk Hlk].
    rewrite (state_before_succ _ _ _ Hlk).
    apply advance_admonition.
    + apply IH; [|lia]. intros m lm Hm. apply Hbetween. lia.
    + destruct (Hbetween k lk ltac:(lia) Hlk) as [?|?]; [now left|right; lia].
Qed.

Lemma emit_in_admonition (lines : list str) (k : nat) (line : str) :
  in_admonition (state_before lines k) = true ->
  emit lines (state_before lines k) k line = line.
Proof.
  intros H. unfold emit. now rewrite kept_in_admonition.
Qed.

Lemma emit_no_indent (lines : list str) st (k : nat) (line : str) :
  leading line = 0%nat -> emit lines st k line = line.
Proof.
  intros H. unfold emit, kept. rewrite H. cbn [Nat.eqb].
  now rewrite !orb_true_r.
Qed.

(** The lines that are reproduced whatever the detectors say, and the
    lines that fail the candidacy test. *)
Lemma emit_pass_through (lines : list str) (k : nat) (line : str) :
  truthy (strip line) = false \/ fence_line line = true
  \/ inside_fence lines k = true \/ opener_line line = true
  \/ in_admonition (state_before lines k) = true
  \/ leading line = 0%nat \/ special_line line = true
  \/ candidate lines k line = false ->
  emit lines (state_before lines k) k line = line.
Proof.
  intros [H|[H|[H|[H|[H|[H|[H|H]]]]]]].
  - unfold emit, kept. now rewrite H.
  - unfold emit, kept. rewrite H. now rewrite !orb_true_r.
  - now apply emit_inside_fence.
  - unfold emit, kept. rewrite H. now rewrite !orb_true_r.
  - now apply emit_in_admonition.
  - now apply emit_no_indent.
  - unfold emit, kept. rewrite H. now rewrite !orb_true_r.
  - unfold emit. rewrite H. now destruct (kept _ _).
Qed.

Lemma emit_cases (lines : list str) st (k : nat) (line : str) :
  emit lines st k line = line
  \/ (emit lines st k line = reindented line
      /\ kept st line = false /\ candidate lines k line = true).
Proof.
  unfold emit. destruct (kept st line); [now left|].
  destruct (candidate lines k line); [now right | now left].
Qed.

Lemma candidate_even (lines : list str) (k : nat) (line : str) :
  candidate lines k line = true -> (leading line mod 2 = 0)%nat.
Proof.
  unfold candidate. intros [[H _]%andb_prop _]%andb_prop.
  now apply Nat.eqb_eq in H.
Qed.

Lemma even_double (n : nat) : (n mod 2 = 0 -> n / 2 * 4 = 2 * n)%nat.
Proof. intros H. pose proof (Nat.div_mod_eq n 2). lia. Qed.

(** Outside fenced blocks and admonitions the scan state is the initial
    one. *)
Lemma clear_state (st : scan_state) :
  in_admonition st = false -> in_code_block st = false -> st = initial.
Proof. destruct st; simpl; intros -> ->; reflexivity. Qed.

Lemma advance_clear_state (st : scan_state) (line : str) :
  truthy (strip line) = true -> leading line = 0%nat ->
  fence_line line = false -> in_code_block st = false ->
  opener_line line = false ->
  advance st line = initial.
Proof.
  intros Hb Hz Hf Hc Ho. apply clear_state.
  - now apply advance_clear.
  - now rewrite advance_code, Hc, Hf.
Qed.

(** From a position outside fenced blocks and admonitions the state stays
    the initial one up to the next delimiter or opener. *)
Lemma clear_stays (lines : list str) (a k : nat) :
  state_before lines a = initial ->
  (forall m lm, (a <= m < k)%nat -> lines !! m = Some lm ->
                fence_line lm = false /\ opener_line lm = false) ->
  (a <= k <= length lines)%nat ->
  state_before lines k = initial.
Proof.
  intros Ha. induction k as [|k IH]; intros Hbetween Hk.
  - now replace a with 0%nat in Ha by lia.
  - destruct (Nat.eq_dec (S k) a) as [<-|Hne]; [exact Ha|].
    destruct (lookup_lt_is_Some_2 lines k ltac:(lia)) as [lk Hlk].
    rewrite (state_before_succ _ _ _ Hlk).
    rewrite IH; [|intros m lm Hm; apply Hbetween; lia|lia].
    destruct (Hbetween k lk ltac:(lia) Hlk) as [Hf Ho].
    now apply advance_unshielded.
Qed.

End Containment.

(** ** The formatter and its heap *)

Section Formatter.

Context {O M : Type}.

(** The string the formatter returns and the heap it leaves. *)
Lemma verbatim_formatter_value (source language css_class : str)
    (options : O) (md : M) (classes : option loc) (id_value : str)
    (attrs : option (list (str * str))) (h : gmap loc (list str))
    (caller : list str) :
  caller_classes h classes = Some caller ->
  _verbatim_formatter source language css_class options md classes id_value
                      attrs h
  = Some (s "<div" ++ id_attribute id_value
            ++ s " class=" ++ [34] ++ class_value css_class caller ++ [34]
            ++ extra_attributes attrs ++ s ">" ++ source ++ s "</div>",
          match classes with
          | None => h
          | Some l => <[ l := css_class :: caller ]> h
          end).
Proof.
  intros Hc. unfold _verbatim_formatter.
  assert (Hattrs :
    match attrs with
    | Some (kv :: kvs) => s " " ++ join (s " ") (attr_items (kv :: kvs))
    | _ => []
    end = extra_attributes attrs).
  { destruct attrs as [[|kv kvs]|]; try reflexivity.
    unfold extra_attributes, attr_items. cbn [map].
    rewrite join_space. cbn [flat_map]. rewrite <- !app_assoc.
    do 6 f_equal. induction kvs as [|x kvs IH]; [reflexivity|].
    cbn [map flat_map]. rewrite IH. now rewrite <- !app_assoc. }
  assert (Hid : (if truthy id_value
                 then s " id=" ++ [34] ++ id_value ++ [34] else [])
                = id_attribute id_value) by now destruct id_value.
  destruct classes as [l|]; cbn [caller_classes] in Hc.
  - rewrite Hc, Hattrs, Hid, join_space. unfold class_value.
    now rewrite <- !app_assoc.
  - injection Hc as <-. rewrite Hattrs, Hid, join_space. unfold class_value.
    now rewrite <- !app_assoc.
Qed.

End Formatter.

(** ** Literal cases *)

Section Examples.

(** A 2-space list line next to another one moves to 4 spaces. *)
Example two_space_siblings :
  _preprocess_list_indentation (text_of [s "  - sibling"; s "  - item"])
  = Ok (text_of [s "    - sibling"; s "    - item"]).
Proof. vm_compute. reflexivity. Qed.

(** A 4-space list line with no 2-space evidence around it stays. *)
Example four_space_item :
  _preprocess_list_indentation (text_of [s "- top"; s "    - item"])
  = Ok (text_of [s "- top"; s "    - item"]).
Proof. vm_compute. reflexivity. Qed.

(** Wrapped text and ordinal markers under a 2-space list move with it;
    a quote and an odd indentation do not. *)
Example mixed_list :
  _preprocess_list_indentation
    (text_of [s "- a"; s "  - b"; s "    wrapped"; s "  1. one";
              s "  > quote"; s "   - odd"])
  = Ok (text_of [s "- a"; s "    - b"; s "        wrapped"; s "    1. one";
                 s "  > quote"; s "   - odd"]).
Proof. vm_compute. reflexivity. Qed.

(** Past the end of the line array the backward scan raises. *)
Example continuation_past_end :
  _is_list_continuation [s "- item"] 2 = Raise IndexError.
Proof. vm_compute. reflexivity. Qed.

(** A list that is passed to the formatter twice collects the class
    twice. *)
Example formatter_called_twice :
  match _verbatim_formatter (s "a") (s "math") (s "arithmatex") tt tt
          (Some 1%positive) [] None {[ 1%positive := [s "wide"] ]} with
  | Some (_, h) =>
      option_map fst
        (_verbatim_formatter (s "b") (s "math") (s "arithmatex") tt tt
           (Some 1%positive) [] None h)
  | None => None
  end
  = Some (s "<div class=" ++ [34] ++ s "arithmatex arithmatex wide" ++ [34]
            ++ s ">b</div>").
Proof. vm_compute. reflexivity. Qed.

(** With the backend, the image is all that [savefig] leaves in a stream
    that was empty, for the expression between dollar signs. *)
Lemma render_latex_with_backend
    (savefig : str -> Latex.image_format -> Z -> Z -> Latex.BinaryIO
               -> result Latex.BinaryIO)
    (expression : str) (format : Latex.image_format) (dpi font_size : Z) :
  Latex.render_latex (Some savefig) expression format dpi font_size
  = match savefig (s "$" ++ expression ++ s "$") format dpi font_size
            {| Latex.content := []; Latex.position := 0 |} with
    | Ok f => Ok (Latex.content f)
    | Raise e => Raise e
    end.
Proof. reflexivity. Qed.

End Examples.

(** * The claims *)

(** ** C1: idempotence of the pre-pass *)

(** C1, as the specification states it, fails: a marker line inside a
    fenced block keeps its 2-space indentation, stays evidence of a 2-space
    convention in the window of the list line after the block, and that
    line is rewritten again on every pass (2, 4, 8, ... spaces). *)
Lemma normalizer_not_idempotent :
  _preprocess_list_indentation
    (text_of [s "```"; s "  - x"; s "```"; s "  - a"])
  = Ok (text_of [s "```"; s "  - x"; s "```"; s "    - a"])
  /\ _preprocess_list_indentation
       (text_of [s "```"; s "  - x"; s "```"; s "    - a"])
     = Ok (text_of [s "```"; s "  - x"; s "```"; s "        - a"])
  /\ text_of [s "```"; s "  - x"; s "```"; s "    - a"]
     <> text_of [s "```"; s "  - x"; s "```"; s "        - a"].
Proof.
  split; [|split]; [vm_compute; reflexivity..|]. vm_compute. discriminate.
Qed.

(** C1 (amended): text in 4-space canonical form, that is text without a
    marker line whose indentation is even and no multiple of 4, is
    returned as it is; and the pre-pass is idempotent on every input in
    which no such marker line lies inside a fenced block or is met in an
    admonition, its first result being in that canonical form.  Inputs
    without fence delimiters and admonition openers are of this kind. *)
Theorem normalizer_idempotent_unshielded (content : str) :
  (Forall (fun l => evidence_line l = false) (split 10 content) ->
   _preprocess_list_indentation content = Ok content)
  /\ ((forall k line,
         split 10 content !! k = Some line -> evidence_line line = true ->
         inside_fence (split 10 content) k = false
         /\ in_admonition (state_before (split 10 content) k) = false) ->
      exists out,
        _preprocess_list_indentation content = Ok out
        /\ Forall (fun l => evidence_line l = false) (split 10 out)
        /\ _preprocess_list_indentation out = Ok out)
  /\ (Forall (fun l => fence_line l = false /\ opener_line l = false)
             (split 10 content) ->
      forall k,
        inside_fence (split 10 content) k = false
        /\ in_admonition (state_before (split 10 content) k) = false).
Proof.
  split; [apply preprocess_canonical|]. split.
  - intros Hu. destruct (preprocess_value content) as [E S].
    eexists. split; [exact E|].
    assert (Hc : Forall (fun l => evidence_line l = false)
                   (split 10 (join [10] (emit_all (split 10 content) initial
                                                  0 (split 10 content))))).
    { rewrite S. now apply emit_all_exposed. }
    split; [exact Hc | now apply preprocess_canonical].
  - intros Hu k. now apply unshielded_exposed.
Qed.

Lemma normalizer_idempotent_unshielded_witness :
  exists out,
    _preprocess_list_indentation
      (text_of [s "- a"; s "  - b"; s "```"; s "    - c"; s "```"]) = Ok out
    /\ Forall (fun l => evidence_line l = false) (split 10 out)
    /\ _preprocess_list_indentation out = Ok out.
Proof.
  apply (proj1 (proj2 (normalizer_idempotent_unshielded
           (text_of [s "- a"; s "  - b"; s "```"; s "    - c"; s "```"])))).
  assert (E : split 10 (text_of [s "- a"; s "  - b"; s "```"; s "    - c";
                                 s "```"])
              = [s "- a"; s "  - b"; s "```"; s "    - c"; s "```"])
    by (vm_compute; reflexivity).
  rewrite E. intros k line Hk He.
  destruct k as [|[|[|[|[|k]]]]]; cbn in Hk; try discriminate;
    injection Hk as <-; try (vm_compute in He; discriminate).
  split; vm_compute; reflexivity.
Defined.

(** ** C2: the 2-space detector *)

(** C2, as the specification states it, fails: with the index at line 0,
    a 2-space marker line at line 5 (the fifth line after the index) is in
    the described window and would give the verdict true, but the loop
    stops at line 4 and the detector returns false. *)
Lemma detector_misses_fifth_line_after :
  _is_likely_2space_system [s "x"; []; []; []; []; s "  - y"] 0 = Ok false
  /\ two_space_verdict (window_5_5 [s "x"; []; []; []; []; s "  - y"] 0)
     = true.
Proof. split; vm_compute; reflexivity. Qed.

(** C2 (amended): for every line array and index the detector inspects
    exactly the 5 lines before the index, the line at the index and the 4
    lines after it (clamped to the document), collects the leading
    whitespace count of every non-blank line in that window whose trimmed
    content starts with a bullet marker, returns false when there is none,
    and otherwise returns true exactly when some collected count is even
    but not a multiple of 4. *)
Theorem detector_window_verdict (lines : list str) (index : Z) :
  _is_likely_2space_system lines index
  = Ok (two_space_verdict
          (slice lines (Z.max 0 (index - 5))
                 (Z.min (Z.of_nat (length lines)) (index + 4 + 1)))).
Proof. exact (likely_2space_window lines index). Qed.

(** ** C3: the interior of a fenced block *)

(** C3, as the specification states it, fails: a block that three
    backticks open is closed for the pre-pass by three tildes.  In this
    document line 2 stands strictly between the opening backticks of line
    0 and the backticks of line 3 that match them, and it is rewritten. *)
Lemma fence_closed_by_other_kind :
  fence_line (s "```") = true /\ fence_line (s "~~~") = true
  /\ _preprocess_list_indentation
       (text_of [s "```"; s "~~~"; s "  - x"; s "```"])
     = Ok (text_of [s "```"; s "~~~"; s "    - x"; s "```"])
  /\ split 10 (text_of [s "```"; s "~~~"; s "  - x"; s "```"]) !! 2%nat
     = Some (s "  - x")
  /\ split 10 (text_of [s "```"; s "~~~"; s "    - x"; s "```"]) !! 2%nat
     = Some (s "    - x").
Proof. repeat split; vm_compute; reflexivity. Qed.

(** C3 (amended): between a delimiter that opens a block (an even number
    of delimiters stands before it) and the next delimiter of either kind,
    backticks or tildes, which closes it for the pre-pass, every line is
    returned unchanged, whatever its indentation and content. *)
Theorem fenced_interior_unchanged (content : str) (i j k : nat)
    (opening closing line : str) :
  split 10 content !! i = Some opening -> fence_line opening = true ->
  inside_fence (split 10 content) i = false ->
  split 10 content !! j = Some closing -> fence_line closing = true ->
  (forall m lm, (i < m < j)%nat -> split 10 content !! m = Some lm ->
                fence_line lm = false) ->
  (i < k < j)%nat -> split 10 content !! k = Some line ->
  exists out,
    _preprocess_list_indentation content = Ok out
    /\ split 10 out !! k = Some line.
Proof.
  intros Hi Hfi Hout Hj Hfj Hbetween Hk Hline.
  destruct (preprocess_line content k line Hline) as (out & E & _ & Hout_k).
  exists out. split; [exact E|]. rewrite Hout_k. f_equal.
  apply emit_inside_fence.
  apply (inside_after_opening _ i k opening Hi Hfi Hout).
  - intros m lm Hm. apply Hbetween. lia.
  - apply lookup_lt_Some in Hline. lia.
Qed.

Lemma fenced_interior_unchanged_witness :
  exists out,
    _preprocess_list_indentation
      (text_of [s "- a"; s "```"; s "  - x"; s "~~~"; s "  - b"]) = Ok out
    /\ split 10 out !! 2%nat = Some (s "  - x").
Proof.
  apply (fenced_interior_unchanged
           (text_of [s "- a"; s "```"; s "  - x"; s "~~~"; s "  - b"])
           1 3 2 (s "```") (s "~~~") (s "  - x")); try (vm_compute; reflexivity).
  - intros m lm Hm Hl. assert (m = 2%nat) as -> by lia.
    vm_compute in Hl. injection Hl as <-. vm_compute. reflexivity.
  - lia.
Defined.

(** ** C4: line count and pass-through *)

(** C4: the result has as many lines as the input, and blank lines, fence
    delimiters, lines inside a fenced block, admonition openers, lines met
    in an admonition, lines without indentation, lines opening with a
    backtick, [#] or [>], and lines that fail the candidacy test are
    reproduced as they are; every other line is rewritten to its 4-space
    form. *)
Theorem line_count_and_pass_through (content : str) :
  exists out,
    _preprocess_list_indentation content = Ok out
    /\ length (split 10 out) = length (split 10 content)
    /\ (forall k line,
          split 10 content !! k = Some line ->
          truthy (strip line) = false \/ fence_line line = true
          \/ inside_fence (split 10 content) k = true
          \/ opener_line line = true
          \/ in_admonition (state_before (split 10 content) k) = true
          \/ leading line = 0%nat \/ special_line line = true
          \/ candidate (split 10 content) k line = false ->
          split 10 out !! k = Some line)
    /\ (forall k line,
          split 10 content !! k = Some line ->
          split 10 out !! k = Some line
          \/ split 10 out !! k = Some (reindented line)).
Proof.
  destruct (preprocess_value content) as [E S].
  eexists. split; [exact E|]. rewrite S. split; [apply emit_all_length|].
  split.
  - intros k line Hline Hcat.
    rewrite (emit_all_lookup _ _ _ _ _ _ Hline). cbn [Nat.add].
    f_equal. now apply emit_pass_through.
  - intros k line Hline.
    rewrite (emit_all_lookup _ _ _ _ _ _ Hline). cbn [Nat.add].
    destruct (emit_cases (split 10 content)
                (fold_left advance (firstn k (split 10 content)) initial)
                k line) as [->|[-> _]]; [now left | now right].
Qed.

Lemma line_count_and_pass_through_witness :
  exists out,
    _preprocess_list_indentation
      (text_of [s "- a"; s "  - b"; s "  > quote"; []; s "   - c"]) = Ok out
    /\ length (split 10 out) = 5%nat
    /\ split 10 out !! 2%nat = Some (s "  > quote")
    /\ split 10 out !! 4%nat = Some (s "   - c").
Proof.
  destruct (line_count_and_pass_through
              (text_of [s "- a"; s "  - b"; s "  > quote"; []; s "   - c"]))
    as (out & E & Hlen & Hkeep & _).
  exists out. split; [exact E|]. split; [exact Hlen|]. split.
  - apply Hkeep; [vm_compute; reflexivity|].
    do 6 right. left. vm_compute. reflexivity.
  - apply Hkeep; [vm_compute; reflexivity|].
    do 7 right. vm_compute. reflexivity.
Defined.

(** ** C5: the continuation detector *)

(** C5: for every line array and every index up to its length (negative
    ones included) the continuation detector scans backward from the line
    before the index over at most 4 lines; the first line whose trimmed
    content starts with a bullet marker makes it true, the first non-blank
    line without indentation met before any marker makes it false, and it
    is false when the 4 lines or the start of the document are
    exhausted. *)
Theorem continuation_backward_scan (lines : list str) (index : Z) :
  (index <= Z.of_nat (length lines))%Z ->
  _is_list_continuation lines index
  = Ok (continuation_scan 4 (rev (firstn (Z.to_nat index) lines))).
Proof. exact (list_continuation_scan_int lines index). Qed.

Lemma continuation_backward_scan_witness :
  (3 <= Z.of_nat (length [s "- item"; s "  more"; []; s "  tail"]))%Z
  /\ _is_list_continuation [s "- item"; s "  more"; []; s "  tail"] 3
     = Ok true.
Proof.
  split; [vm_compute; discriminate|].
  exact (continuation_backward_scan
           [s "- item"; s "  more"; []; s "  tail"] 3
           ltac:(vm_compute; discriminate)).
Defined.

(** ** C6: admonition containment *)

(** C6, as the specification states it, fails in two ways.  An opener
    inside a fenced block opens no admonition: in the first document line
    1 matches the opener, lines 2 and 3 are indented, and yet line 3 is
    rewritten.  And a non-blank line without indentation does not end the
    admonition when it is a fence delimiter: in the second document the
    state is still set after line 1, so line 3 is left alone, although the
    same lines after a plain first line are rewritten. *)
Lemma admonition_claim_fails :
  (opener_line (s "!!! note") = true
   /\ leading (s "  ```") = 2%nat /\ leading (s "  - a") = 2%nat
   /\ _preprocess_list_indentation
        (text_of [s "```"; s "!!! note"; s "  ```"; s "  - a"])
      = Ok (text_of [s "```"; s "!!! note"; s "  ```"; s "    - a"]))
  /\ (truthy (strip (s "```")) = true /\ leading (s "```") = 0%nat
      /\ in_admonition
           (state_before [s "!!! note"; s "```"; s "  ```"; s "  - a"] 2)
         = true
      /\ _preprocess_list_indentation
           (text_of [s "!!! note"; s "```"; s "  ```"; s "  - a"])
         = Ok (text_of [s "!!! note"; s "```"; s "  ```"; s "  - a"])
      /\ _preprocess_list_indentation
           (text_of [s "x"; s "```"; s "  ```"; s "  - a"])
         = Ok (text_of [s "x"; s "```"; s "  ```"; s "    - a"])).
Proof. repeat split; vm_compute; reflexivity. Qed.

(** C6 (amended): once a line met outside a fenced block matches the
    admonition opener, every subsequent line is emitted unchanged as long
    as no non-blank line without indentation has been met; the first such
    line, when it is met outside a fenced block and is neither a fence
    delimiter nor an opener, finds the admonition state set; the loop body
    clears the state on it and emits that line unchanged, and the lines
    after it, up to the next delimiter or opener, are processed as in the
    initial state, so that a marker line with a 2-space indentation among
    them is rewritten. *)
Theorem admonition_containment (content : str) (a : nat) (opener : str) :
  split 10 content !! a = Some opener -> opener_line opener = true ->
  inside_fence (split 10 content) a = false ->
  exists out,
    _preprocess_list_indentation content = Ok out
    /\ (forall k line,
          (a < k)%nat -> split 10 content !! k = Some line ->
          (forall m lm, (a < m <= k)%nat ->
                        split 10 content !! m = Some lm ->
                        truthy (strip lm) = false \/ (0 < leading lm)%nat) ->
          split 10 out !! k = Some line)
    /\ (forall z lz,
          (a < z)%nat -> split 10 content !! z = Some lz ->
          (forall m lm, (a < m < z)%nat ->
                        split 10 content !! m = Some lm ->
                        truthy (strip lm) = false \/ (0 < leading lm)%nat) ->
          truthy (strip lz) = true -> leading lz = 0%nat ->
          fence_line lz = false ->
          inside_fence (split 10 content) z = false ->
          opener_line lz = false ->
          in_admonition (state_before (split 10 content) z) = true
          /\ in_admonition (state_before (split 10 content) (S z)) = false
          /\ split 10 out !! z = Some lz
          /\ (forall st,
                in_code_block st = false ->
                process_line (split 10 content) st z lz
                = Ok ({| in_admonition := false; in_code_block := false |},
                      lz))
          /\ (forall k line,
                (z < k)%nat -> split 10 content !! k = Some line ->
                (forall m lm, (z < m < k)%nat ->
                              split 10 content !! m = Some lm ->
                              fence_line lm = false
                              /\ opener_line lm = false) ->
                (exists st' o,
                    process_line (split 10 content)
                      {| in_admonition := false; in_code_block := false |}
                      k line = Ok (st', o)
                    /\ split 10 out !! k = Some o)
                /\ (evidence_line line = true ->
                    split 10 out !! k
                    = Some (repeat 32 (2 * leading line)%nat
                              ++ lstrip line)))).
Proof.
  intros Ha Ho Hout. destruct (preprocess_value content) as [E Hs].
  eexists. split; [exact E|]. rewrite Hs. split.
  - intros k line Hk Hline Hbetween.
    rewrite (emit_all_lookup _ _ _ _ _ _ Hline). cbn [Nat.add]. f_equal.
    apply emit_in_admonition.
    apply (admonition_open _ a k opener Ha Ho Hout).
    + intros m lm Hm. apply Hbetween. lia.
    + apply lookup_lt_Some in Hline. lia.
  - intros z lz Hz Hline Hbetween Hb Hlead Hf Hin Hop.
    pose proof (lookup_lt_Some _ _ _ Hline) as Hzlen.
    assert (Hadm : in_admonition (state_before (split 10 content) z) = true).
    { apply (admonition_open _ a z opener Ha Ho Hout Hbetween). lia. }
    assert (Hcode : in_code_block (state_before (split 10 content) z) = false)
      by now rewrite in_code_block_parity.
    assert (Hnext : state_before (split 10 content) (S z) = initial).
    { rewrite (state_before_succ _ _ _ Hline).
      now apply advance_clear_state. }
    split; [exact Hadm|]. split; [now rewrite Hnext|]. split.
    { rewrite (emit_all_lookup _ _ _ _ _ _ Hline). cbn [Nat.add]. f_equal.
      now apply emit_no_indent. }
    split.
    { intros st Hst. rewrite process_line_value by lia.
      rewrite advance_clear_state by assumption.
      now rewrite emit_no_indent. }
    intros k line Hk Hkline Hplain.
    pose proof (lookup_lt_Some _ _ _ Hkline) as Hklen.
    assert (Hstate : state_before (split 10 content) k = initial).
    { apply (clear_stays _ (S z) k Hnext); [|lia].
      intros m lm Hm. apply Hplain. lia. }
    rewrite (emit_all_lookup _ _ _ _ _ _ Hkline). cbn [Nat.add].
    fold (state_before (split 10 content) k). rewrite Hstate. split.
    + eexists _, _. split; [|reflexivity].
      change {| in_admonition := false; in_code_block := false |}
        with initial.
      apply process_line_value. lia.
    + intros He. f_equal.
      destruct (evidence_plain _ He) as [Hf' Ho'].
      pose proof (evidence_candidate _ _ _ Hkline He) as Hc.
      unfold emit.
      rewrite (evidence_not_kept initial line He Hf' Ho' eq_refl eq_refl), Hc.
      unfold reindented.
      now rewrite (even_double _ (candidate_even _ _ _ Hc)).
Qed.

Lemma admonition_containment_witness :
  exists out,
    _preprocess_list_indentation
      (text_of [s "!!! note"; s "  - kept"; s "end"; s "  - moved"]) = Ok out
    /\ split 10 out !! 1%nat = Some (s "  - kept")
    /\ in_admonition
         (state_before [s "!!! note"; s "  - kept"; s "end"; s "  - moved"] 3)
       = false
    /\ split 10 out !! 2%nat = Some (s "end")
    /\ split 10 out !! 3%nat = Some (s "    - moved").
Proof.
  destruct (admonition_containment
              (text_of [s "!!! note"; s "  - kept"; s "end"; s "  - moved"])
              0 (s "!!! note")) as (out & E & Hkeep & Hclear);
    try (vm_compute; reflexivity).
  assert (Hb : forall m lm, (0 < m < 2)%nat ->
                 split 10 (text_of [s "!!! note"; s "  - kept"; s "end";
                                    s "  - moved"]) !! m = Some lm ->
                 truthy (strip lm) = false \/ (0 < leading lm)%nat).
  { intros m lm Hm Hl. assert (m = 1%nat) as -> by lia.
    vm_compute in Hl. injection Hl as <-. right. vm_compute. lia. }
  exists out. split; [exact E|]. split.
  - apply (Hkeep 1%nat); [lia | vm_compute; reflexivity|].
    intros m lm Hm. apply Hb. lia.
  - destruct (Hclear 2%nat (s "end")) as (_ & Hc & Hz & _ & Hafter);
      try (vm_compute; reflexivity); [lia | exact Hb |].
    split; [exact Hc|]. split; [exact Hz|].
    destruct (Hafter 3%nat (s "  - moved")) as [_ Hmoved];
      [lia | vm_compute; reflexivity | intros m lm Hm; lia |].
    apply Hmoved. vm_compute. reflexivity.
Defined.

(** ** C7: the emoji generator *)

(** C7: with a codepoint sequence [uc] the element that is returned has
    [data-unicode] equal to [uc] and, when every hyphen-delimited token of
    [uc] is a hexadecimal code point, it is returned with the decoded
    characters as its text, whatever the fallback text is; without [uc]
    the text is the fallback text; and shortname [smile], alias [:smile:],
    uc [1f604] give the text U+1F604 and data-unicode [1f604]. *)
Theorem emoji_generator_glyph :
  (forall (O M : Type) (index shortname : str) (alias : option str)
          (uc alt : str) (title category : option str) (options : O)
          (md : M),
      (forall e,
          _emoji_generator index shortname alias (Some uc) alt title category
                           options md = Ok e ->
          attrib e !! s "data-unicode" = Some uc)
      /\ (forall cps,
             decode_sequence uc = Some cps ->
             exists e,
               _emoji_generator index shortname alias (Some uc) alt title
                                category options md = Ok e
               /\ attrib e !! s "data-unicode" = Some uc
               /\ text e = Some cps)
      /\ (forall alt',
             _emoji_generator index shortname alias (Some uc) alt' title
                              category options md
             = _emoji_generator index shortname alias (Some uc) alt title
                                category options md))
  /\ (forall (O M : Type) (index shortname : str) (alias : option str)
             (alt : str) (title category : option str) (options : O)
             (md : M),
         exists e,
           _emoji_generator index shortname alias None alt title category
                            options md = Ok e
           /\ text e = Some alt
           /\ attrib e !! s "data-unicode" = None)
  /\ (exists e,
         _emoji_generator (s "twemoji") (s "smile") (Some (s ":smile:"))
                          (Some (s "1f604")) (s ":smile:") None None tt tt
         = Ok e
         /\ text e = Some [128516]
         /\ attrib e !! s "data-unicode" = Some (s "1f604")
         /\ attrib e !! s "data-shortname" = Some (s "smile")).
Proof.
  split; [|split].
  - intros O M index shortname alias uc alt title category options md.
    split; [|split].
    + intros e. unfold _emoji_generator.
      destruct (chars_of_items (split 45 uc)); cbn [bind]; [|discriminate].
      intros [= <-]. cbn [attrib]. apply lookup_insert_eq.
    + intros cps Hd. unfold decode_sequence in Hd.
      unfold _emoji_generator. rewrite (chars_of_tokens _ _ Hd).
      cbn [bind]. eexists. split; [reflexivity|]. cbn [attrib text].
      split; [apply lookup_insert_eq | now rewrite join_chars].
    + reflexivity.
  - intros O M index shortname alias alt title category options md.
    eexists. split; [reflexivity|]. cbn [attrib text]. split; [reflexivity|].
    apply lookup_singleton_ne. vm_compute. discriminate.
  - eexists. split; [vm_compute; reflexivity|].
    repeat split; vm_compute; reflexivity.
Qed.

Lemma emoji_generator_glyph_witness :
  exists e,
    _emoji_generator (s "twemoji") (s "flag_hu") None (Some (s "1f1ed-1f1fa"))
                     (s ":flag_hu:") None None tt tt = Ok e
    /\ attrib e !! s "data-unicode" = Some (s "1f1ed-1f1fa")
    /\ text e = Some [127469; 127482].
Proof.
  apply (proj1 (proj2 (proj1 emoji_generator_glyph unit unit (s "twemoji")
                         (s "flag_hu") None (s "1f1ed-1f1fa") (s ":flag_hu:")
                         None None tt tt))).
  vm_compute. reflexivity.
Defined.

(** ** C8: the fenced-block formatter *)

(** C8: the formatter returns a [div] whose opening tag has an [id]
    attribute only for a non-empty element id, whose [class] attribute
    lists the configured class first and then the classes of the caller,
    and whose content is the source as it is; with source [x^2], class
    [arithmatex] and no optional argument the result is the [div] of that
    class around [x^2], without an id. *)
Theorem verbatim_formatter_div :
  (forall (O M : Type) (source language css_class : str) (options : O)
          (md : M) (classes : option loc) (id_value : str)
          (attrs : option (list (str * str))) (h : gmap loc (list str))
          (caller : list str),
      caller_classes h classes = Some caller ->
      exists h',
        _verbatim_formatter source language css_class options md classes
                            id_value attrs h
        = Some (s "<div"
                  ++ match id_value with
                     | [] => []
                     | _ :: _ => s " id=" ++ [34] ++ id_value ++ [34]
                     end
                  ++ s " class=" ++ [34]
                  ++ css_class ++ flat_map (fun c => s " " ++ c) caller
                  ++ [34]
                  ++ extra_attributes attrs
                  ++ s ">" ++ source ++ s "</div>", h'))
  /\ (forall (O M : Type) (language : str) (options : O) (md : M)
             (h : gmap loc (list str)),
         _verbatim_formatter (s "x^2") language (s "arithmatex") options md
                             None [] None h
         = Some (s "<div class=" ++ [34] ++ s "arithmatex" ++ [34]
                   ++ s ">x^2</div>", h)).
Proof.
  split.
  - intros O M source language css_class options md classes id_value attrs h
           caller Hc.
    eexists. rewrite (verbatim_formatter_value _ _ _ _ _ _ _ _ _ _ Hc).
    unfold class_value, id_attribute. now rewrite <- !app_assoc.
  - intros O M language options md h.
    now rewrite (verbatim_formatter_value _ _ _ _ _ None _ _ _ [] eq_refl).
Qed.

Lemma verbatim_formatter_div_witness :
  exists h',
    _verbatim_formatter (s "a < b") (s "csf") (s "csf") tt tt
                        (Some 1%positive) (s "n1")
                        (Some [(s "data-x", s "1")])
                        {[ 1%positive := [s "wide"] ]}
    = Some (s "<div id=" ++ [34] ++ s "n1" ++ [34]
              ++ s " class=" ++ [34] ++ s "csf wide" ++ [34]
              ++ s " data-x=" ++ [34] ++ s "1" ++ [34]
              ++ s ">a < b</div>", h').
Proof.
  destruct (proj1 verbatim_formatter_div unit unit (s "a < b") (s "csf")
              (s "csf") tt tt (Some 1%positive) (s "n1")
              (Some [(s "data-x", s "1")]) {[ 1%positive := [s "wide"] ]}
              [s "wide"] ltac:(apply lookup_singleton_eq)) as [h' E].
  exists h'. exact E.
Defined.

(** ** C9: rendering without the backend *)

(** C9: when matplotlib is not found, [render_latex] raises for every
    expression, format, resolution and font size, and never returns image
    bytes; the error is the one that names the remedy (installing
    matplotlib), and [LATEX_ENABLED] is false. *)
Theorem render_latex_without_backend (expression : str)
    (format : Latex.image_format) (dpi font_size : Z) :
  Latex.render_latex None expression format dpi font_size
  = Raise (RuntimeError
             (s "matplotlib not installed; run: `pip install matplotlib`"))
  /\ (forall image,
         Latex.render_latex None expression format dpi font_size <> Ok image)
  /\ Latex.LATEX_ENABLED None = false.
Proof. split; [reflexivity|]. split; [discriminate | reflexivity]. Qed.

(** ** C10: the formatter mutates the list of its caller *)

(** C10: called with a list of classes, the formatter inserts [css_class]
    at position 0 of that very list: after the call the caller's list has
    [css_class] as its first element, before its former content, and no
    other list has changed. *)
Theorem verbatim_formatter_mutates_classes (O M : Type)
    (source language css_class : str) (options : O) (md : M) (l : loc)
    (id_value : str) (attrs : option (list (str * str)))
    (h : gmap loc (list str)) (old : list str) :
  h !! l = Some old ->
  exists out h',
    _verbatim_formatter source language css_class options md (Some l)
                        id_value attrs h = Some (out, h')
    /\ h' !! l = Some (css_class :: old)
    /\ (forall l', l' <> l -> h' !! l' = h !! l').
Proof.
  intros Hl.
  rewrite (verbatim_formatter_value _ _ _ _ _ (Some l) _ _ _ old Hl).
  eexists _, _. split; [reflexivity|]. split.
  - apply lookup_insert_eq.
  - intros l' Hne. now apply lookup_insert_ne.
Qed.

Lemma verbatim_formatter_mutates_classes_witness :
  exists out h',
    _verbatim_formatter (s "x^2") (s "math") (s "arithmatex") tt tt
                        (Some 1%positive) [] None
                        {[ 1%positive := [s "wide"] ]} = Some (out, h')
    /\ h' !! 1%positive = Some [s "arithmatex"; s "wide"]
    /\ (forall l', l' <> 1%positive ->
                   h' !! l' = ({[ 1%positive := [s "wide"] ]}
                                 : gmap loc (list str)) !! l').
Proof.
  apply (verbatim_formatter_mutates_classes unit unit (s "x^2") (s "math")
           (s "arithmatex") tt tt 1%positive [] None
           {[ 1%positive := [s "wide"] ]} [s "wide"]).
  apply lookup_singleton_eq.
Defined.

(** * Further properties *)

(** ** What the pre-pass does to a line *)

Section LineEffect.

Lemma leading_length (line : str) :
  length line = (leading line + length (lstrip line))%nat.
Proof. unfold leading. pose proof (lstrip_length line). lia. Qed.

Lemma kept_false (st : scan_state) (line : str) :
  kept st line = false ->
  truthy (strip line) = true /\ in_code_block st = false
  /\ (0 < leading line)%nat /\ fence_line line = false
  /\ opener_line line = false /\ special_line line = false.
Proof.
  unfold kept. intros H.
  destruct (truthy (strip line)); [|discriminate].
  destruct (fence_line line); [discriminate|].
  destruct (in_code_block st); [discriminate|].
  destruct (opener_line line); [discriminate|].
  destruct (Nat.eqb_spec (leading line) 0); [discriminate|].
  destruct (special_line line); [discriminate|].
  repeat split. lia.
Qed.

(** The emitted line is the line itself or its indentation doubled in
    spaces. *)
Lemma emit_form (lines : list str) st (k : nat) (line : str) :
  emit lines st k line = line
  \/ (emit lines st k line = repeat 32 (2 * leading line)%nat ++ lstrip line
      /\ kept st line = false /\ candidate lines k line = true).
Proof.
  destruct (emit_cases lines st k line) as [?|(E & Hk & Hc)]; [now left|].
  right. rewrite E. unfold reindented.
  now rewrite (even_double _ (candidate_even _ _ _ Hc)).
Qed.

Lemma emit_lstrip (lines : list str) st (k : nat) (line : str) :
  lstrip (emit lines st k line) = lstrip line.
Proof.
  destruct (emit_cases lines st k line) as [->|(-> & Hk & _)];
    [reflexivity|].
  apply reindented_leading. now apply kept_false in Hk.
Qed.

Lemma emit_length (lines : list str) st (k : nat) (line : str) :
  (length line <= length (emit lines st k line) <= 2 * length line)%nat.
Proof.
  destruct (emit_form lines st k line) as [->|(-> & _ & _)]; [lia|].
  rewrite length_app, repeat_length, (leading_length line). lia.
Qed.

(** Characters and separators of a document, counted line by line. *)
Lemma join_length (ls : list str) :
  ls <> [] ->
  S (length (join [10] ls))
  = fold_right (fun l n => (S (length l) + n)%nat) 0%nat ls.
Proof.
  induction ls as [|l ls IH]; [done|]. intros _.
  destruct ls as [|l' ls].
  - simpl. lia.
  - change (join [10] (l :: l' :: ls)) with (l ++ 10 :: join [10] (l' :: ls)).
    rewrite length_app. cbn [length fold_right] in IH |- *.
    specialize (IH ltac:(discriminate)). lia.
Qed.

Lemma emit_all_total (lines : list str) st (k : nat) (todo : list str) :
  (fold_right (fun l n => S (length l) + n) 0 todo
   <= fold_right (fun l n => S (length l) + n) 0 (emit_all lines st k todo)
   /\ fold_right (fun l n => S (length l) + n) 0 (emit_all lines st k todo)
      + length todo
      <= 2 * fold_right (fun l n => S (length l) + n) 0 todo)%nat.
Proof.
  revert st k. induction todo as [|line todo IH]; intros st k.
  - simpl. lia.
  - cbn [emit_all fold_right length].
    pose proof (emit_length lines st k line).
    specialize (IH (advance st line) (S k)). lia.
Qed.

(** The positions of a window. *)
Lemma window_positions (lines : list str) (index : Z) (x : str) :
  x ∈ window_5_4 lines index <->
  exists j, (index - 5 <= Z.of_nat j <= index + 4)%Z /\ lines !! j = Some x.
Proof.
  unfold window_5_4, slice. split.
  - intros [i Hi]%list_elem_of_lookup.
    apply lookup_take_Some in Hi as [Hi Hlt]. rewrite lookup_drop in Hi.
    exists (Z.to_nat (Z.max 0 (index - 5)) + i)%nat. split; [lia|exact Hi].
  - intros (j & Hj & Hx). pose proof (lookup_lt_Some _ _ _ Hx) as Hlen.
    apply list_elem_of_lookup.
    exists (j - Z.to_nat (Z.max 0 (index - 5)))%nat.
    rewrite lookup_take_lt by lia. rewrite lookup_drop. rewrite <- Hx.
    f_equal. lia.
Qed.

(** The verdict on a window, by positions. *)
Lemma verdict_positions (lines : list str) (index : Z) :
  two_space_verdict (window_5_4 lines index) = true <->
  exists j line,
    (index - 5 <= Z.of_nat j <= index + 4)%Z
    /\ lines !! j = Some line /\ evidence_line line = true.
Proof.
  rewrite verdict_evidence, existsb_exists. split.
  - intros (x & Hx & He). apply list_elem_of_In, window_positions in Hx.
    destruct Hx as (j & Hj & Hl). eauto.
  - intros (j & line & Hj & Hl & He). exists line. split; [|exact He].
    apply list_elem_of_In, window_positions. eauto.
Qed.

End LineEffect.

(** ** The pre-pass *)

(** X1: the pre-pass never raises, and it changes nothing but
    indentation: every line of the result has the left-trimmed content of
    the input line at its position, and is either that line as it is or
    that content behind twice as many spaces as the line had leading
    whitespace characters, an even positive number of them. *)
Theorem prepass_changes_indentation_only (content : str) :
  exists out,
    _preprocess_list_indentation content = Ok out
    /\ forall k line,
         split 10 content !! k = Some line ->
         exists o,
           split 10 out !! k = Some o
           /\ lstrip o = lstrip line
           /\ (o = line
               \/ (o = repeat 32 (2 * leading line)%nat ++ lstrip line
                   /\ (0 < leading line)%nat
                   /\ (leading line mod 2 = 0)%nat)).
Proof.
  destruct (preprocess_value content) as [E S].
  eexists. split; [exact E|]. rewrite S. intros k line Hline.
  rewrite (emit_all_lookup _ _ _ _ _ _ Hline). cbn [Nat.add].
  eexists. split; [reflexivity|]. split; [apply emit_lstrip|].
  destruct (emit_form (split 10 content)
              (fold_left advance (firstn k (split 10 content)) initial)
              k line) as [->|(-> & Hk & Hc)]; [now left|].
  right. split; [reflexivity|]. split.
  - now apply kept_false in Hk.
  - now apply candidate_even in Hc.
Qed.

Lemma prepass_changes_indentation_only_witness :
  exists out o,
    _preprocess_list_indentation
      (text_of [s "- a"; [9; 32] ++ s "- b"]) = Ok out
    /\ split 10 out !! 1%nat = Some o
    /\ lstrip o = s "- b".
Proof.
  destruct (prepass_changes_indentation_only
              (text_of [s "- a"; [9; 32] ++ s "- b"])) as (out & E & H).
  destruct (H 1%nat ([9; 32] ++ s "- b") ltac:(vm_compute; reflexivity))
    as (o & Ho & Hl & _).
  exists out, o. split; [exact E|]. split; [exact Ho|]. exact Hl.
Defined.

(** X2: the result is never shorter than the input and at most twice as
    long. *)
Theorem prepass_size_bounds (content : str) :
  exists out,
    _preprocess_list_indentation content = Ok out
    /\ (length content <= length out <= 2 * length content)%nat.
Proof.
  destruct (preprocess_value content) as [E _].
  eexists. split; [exact E|].
  pose proof (split_not_nil 10 content) as Hn.
  pose proof (emit_all_total (split 10 content) initial 0 (split 10 content))
    as [Hlo Hhi].
  assert (Hn' : emit_all (split 10 content) initial 0 (split 10 content)
                <> []).
  { destruct (split 10 content); [done|]. discriminate. }
  rewrite <- (join_length _ Hn'), <- (join_length _ Hn) in Hlo, Hhi.
  rewrite join_split in Hlo, Hhi.
  assert (1 <= length (split 10 content))%nat
    by (destruct (split 10 content); [done | simpl; lia]).
  lia.
Qed.

(** X3: a line is rewritten only when it is non-blank, lies outside every
    fenced block, is not met in an admonition, has an even positive
    indentation, and a marker line whose indentation is even and no
    multiple of 4 stands among the 5 lines before it, the line itself and
    the 4 lines after it. *)
Theorem rewrite_needs_evidence (content out : str) (k : nat) (line o : str) :
  _preprocess_list_indentation content = Ok out ->
  split 10 content !! k = Some line ->
  split 10 out !! k = Some o ->
  o <> line ->
  truthy (strip line) = true
  /\ inside_fence (split 10 content) k = false
  /\ in_admonition (state_before (split 10 content) k) = false
  /\ (0 < leading line)%nat /\ (leading line mod 2 = 0)%nat
  /\ exists j ev,
       (Z.of_nat k - 5 <= Z.of_nat j <= Z.of_nat k + 4)%Z
       /\ split 10 content !! j = Some ev
       /\ evidence_line ev = true.
Proof.
  intros E Hline Ho Hne. destruct (preprocess_value content) as [E' S].
  rewrite E in E'. injection E' as ->. rewrite S in Ho.
  rewrite (emit_all_lookup _ _ _ _ _ _ Hline) in Ho. cbn [Nat.add] in Ho.
  injection Ho as <-. fold (state_before (split 10 content) k) in Hne.
  destruct (emit_cases (split 10 content)
              (state_before (split 10 content) k) k line)
    as [Heq|(_ & Hk & Hc)]; [congruence|].
  destruct (kept_false _ _ Hk) as (Hb & Hcode & Hpos & _).
  split; [exact Hb|]. split; [now rewrite <- in_code_block_parity|].
  split.
  { destruct (in_admonition (state_before (split 10 content) k)) eqn:Ha;
      [|reflexivity].
    now rewrite kept_in_admonition in Hk. }
  split; [exact Hpos|]. split; [now apply candidate_even in Hc|].
  unfold candidate in Hc. apply andb_prop in Hc as [[_ Hv]%andb_prop _].
  now apply verdict_positions.
Qed.

Lemma rewrite_needs_evidence_witness :
  exists j ev,
    (Z.of_nat 2 - 5 <= Z.of_nat j <= Z.of_nat 2 + 4)%Z
    /\ split 10 (text_of [s "- a"; s "  - b"; s "    - c"]) !! j = Some ev
    /\ evidence_line ev = true.
Proof.
  apply (rewrite_needs_evidence
           (text_of [s "- a"; s "  - b"; s "    - c"])
           (text_of [s "- a"; s "    - b"; s "        - c"])
           2 (s "    - c") (s "        - c"));
    try (vm_compute; reflexivity).
  vm_compute. discriminate.
Defined.

(** X4: a marker line whose indentation is even and no multiple of 4,
    lying outside every fenced block and not met in an admonition, is
    always rewritten: its content moves behind twice as many spaces. *)
Theorem exposed_marker_rewritten (content : str) (k : nat) (line : str) :
  split 10 content !! k = Some line ->
  evidence_line line = true ->
  inside_fence (split 10 content) k = false ->
  in_admonition (state_before (split 10 content) k) = false ->
  exists out,
    _preprocess_list_indentation content = Ok out
    /\ split 10 out !! k
       = Some (repeat 32 (2 * leading line)%nat ++ lstrip line).
Proof.
  intros Hline He Hin Ha. destruct (preprocess_value content) as [E S].
  eexists. split; [exact E|]. rewrite S.
  rewrite (emit_all_lookup _ _ _ _ _ _ Hline). cbn [Nat.add]. f_equal.
  fold (state_before (split 10 content) k).
  destruct (evidence_plain _ He) as [Hf Ho].
  rewrite <- in_code_block_parity in Hin.
  pose proof (evidence_candidate _ _ _ Hline He) as Hc.
  unfold emit. rewrite (evidence_not_kept _ line He Hf Ho Hin Ha), Hc.
  unfold reindented. now rewrite (even_double _ (candidate_even _ _ _ Hc)).
Qed.

Lemma exposed_marker_rewritten_witness :
  exists out,
    _preprocess_list_indentation
      (text_of [s "# title"; s "      * deep"]) = Ok out
    /\ split 10 out !! 1%nat = Some (s "            * deep").
Proof.
  apply (exposed_marker_rewritten
           (text_of [s "# title"; s "      * deep"]) 1 (s "      * deep"));
    vm_compute; reflexivity.
Defined.

(** X5: a fence that is never closed protects the rest of the document:
    after a delimiter that opens a block and is followed by no other
    delimiter, every line is returned unchanged. *)
Theorem unclosed_fence_protects_rest (content : str) (i k : nat)
    (opening line : str) :
  split 10 content !! i = Some opening -> fence_line opening = true ->
  inside_fence (split 10 content) i = false ->
  (forall m lm, (i < m)%nat -> split 10 content !! m = Some lm ->
                fence_line lm = false) ->
  (i < k)%nat -> split 10 content !! k = Some line ->
  exists out,
    _preprocess_list_indentation content = Ok out
    /\ split 10 out !! k = Some line.
Proof.
  intros Hi Hf Hout Hafter Hk Hline.
  destruct (preprocess_line content k line Hline) as (out & E & _ & Hout_k).
  exists out. split; [exact E|]. rewrite Hout_k. f_equal.
  apply emit_inside_fence.
  apply (inside_after_opening _ i k opening Hi Hf Hout).
  - intros m lm Hm. apply Hafter. lia.
  - apply lookup_lt_Some in Hline. lia.
Qed.

Lemma unclosed_fence_protects_rest_witness :
  exists out,
    _preprocess_list_indentation
      (text_of [s "~~~ text"; s "- a"; s "  - b"]) = Ok out
    /\ split 10 out !! 2%nat = Some (s "  - b").
Proof.
  apply (unclosed_fence_protects_rest
           (text_of [s "~~~ text"; s "- a"; s "  - b"]) 0 2 (s "~~~ text")
           (s "  - b")); try (vm_compute; reflexivity); [|lia].
  intros m lm Hm Hl.
  destruct m as [|[|[|m]]]; [lia|..]; vm_compute in Hl;
    try discriminate; injection Hl as <-; vm_compute; reflexivity.
Defined.

(** ** The detectors *)

(** X6: for every line array and every index, the 2-space detector
    returns true exactly when a marker line whose indentation is even and
    no multiple of 4 stands at a position from [index - 5] to
    [index + 4]; otherwise it returns false, and it never raises. *)
Theorem detector_true_iff_evidence_near (lines : list str) (index : Z) :
  (exists b, _is_likely_2space_system lines index = Ok b)
  /\ (_is_likely_2space_system lines index = Ok true <->
      exists j line,
        (index - 5 <= Z.of_nat j <= index + 4)%Z
        /\ lines !! j = Some line /\ evidence_line line = true).
Proof.
  rewrite likely_2space_window. split; [eauto|].
  rewrite <- verdict_positions. split; [now intros [= ->] | now intros ->].
Qed.

(** X7: at an index 5 or more lines before the start or 5 or more lines
    past the end of the line array the 2-space detector returns false. *)
Theorem detector_false_far_outside (lines : list str) (index : Z) :
  (index <= -5 \/ Z.of_nat (length lines) + 5 <= index)%Z ->
  _is_likely_2space_system lines index = Ok false.
Proof.
  intros H. rewrite likely_2space_window. f_equal.
  destruct (two_space_verdict _) eqn:V; [|reflexivity].
  apply verdict_positions in V as (j & line & Hj & Hl & _).
  apply lookup_lt_Some in Hl. lia.
Qed.

Lemma detector_false_far_outside_witness :
  _is_likely_2space_system [s "  - a"; s "  - b"] 7 = Ok false.
Proof.
  apply (detector_false_far_outside [s "  - a"; s "  - b"] 7).
  right. vm_compute. discriminate.
Defined.

(** X8: at an index past the length of the line array the continuation
    detector raises [IndexError]: its first lookup is out of range. *)
Theorem continuation_index_error (lines : list str) (index : Z) :
  (Z.of_nat (length lines) < index)%Z ->
  _is_list_continuation lines index = Raise IndexError.
Proof.
  intros H. unfold _is_list_continuation.
  destruct (Z.eqb_spec index 0); [lia|].
  rewrite range_down_cons by lia. cbn [scan_back].
  replace (index - 1)%Z with (Z.of_nat (Z.to_nat (index - 1))) by lia.
  rewrite getitem_lookup, lookup_ge_None_2 by lia. reflexivity.
Qed.

Lemma continuation_index_error_witness :
  _is_list_continuation [s "- a"] 2 = Raise IndexError.
Proof.
  apply (continuation_index_error [s "- a"] 2). vm_compute. reflexivity.
Defined.

(** ** The emoji generator *)

Section EmojiFacts.

Lemma lstrip_chars_suffix (chars x : str) :
  exists pre, x = pre ++ lstrip_chars chars x.
Proof.
  induction x as [|c x [pre IH]]; [now exists []|]. cbn [lstrip_chars].
  destruct (existsb (N.eqb c) chars); [|now exists []].
  exists (c :: pre). cbn [app]. now f_equal.
Qed.

Lemma lstrip_chars_head (chars x : str) (c : N) (r : str) :
  lstrip_chars chars x = c :: r -> existsb (N.eqb c) chars = false.
Proof.
  induction x as [|d x IH]; [discriminate|]. cbn [lstrip_chars].
  destruct (existsb (N.eqb d) chars) eqn:Hd; [exact IH|].
  now intros [= <- _].
Qed.

(** [x.strip(chars)] neither starts nor ends with one of [chars]. *)
Lemma strip_chars_ends (chars x : str) :
  (forall c r, strip_chars chars x = c :: r ->
               existsb (N.eqb c) chars = false)
  /\ (forall c r, rev (strip_chars chars x) = c :: r ->
                  existsb (N.eqb c) chars = false).
Proof.
  unfold strip_chars. split; intros c r H.
  - destruct (lstrip_chars_suffix chars (rev (lstrip_chars chars x)))
      as [pre E].
    apply (f_equal (@rev N)) in E. rewrite rev_involutive, rev_app_distr in E.
    rewrite H in E. cbn [app] in E.
    eapply lstrip_chars_head. exact E.
  - rewrite rev_involutive in H. eapply lstrip_chars_head. exact H.
Qed.

Lemma chars_of_items_each (items cs : list str) :
  chars_of_items items = Ok cs ->
  length cs = length items
  /\ Forall (fun c => length c = 1%nat) cs
  /\ Forall (fun item => exists n c, int16 item = Ok n /\ chr n = Ok c) items.
Proof.
  revert cs. induction items as [|item items IH]; intros cs H.
  - injection H as <-. repeat split; constructor.
  - cbn [chars_of_items] in H.
    destruct (int16 item) as [n|] eqn:Hn; [|discriminate]. cbn [bind] in H.
    destruct (chr n) as [c|] eqn:Hc; [|discriminate]. cbn [bind] in H.
    destruct (chars_of_items items) as [cs'|]; [|discriminate].
    injection H as <-. destruct (IH _ eq_refl) as (Hl & H1 & Hi).
    repeat split.
    + simpl. now rewrite Hl.
    + now constructor.
    + constructor; [eauto | exact Hi].
Qed.

Lemma join_singletons_length (cs : list str) :
  Forall (fun c => length c = 1%nat) cs ->
  length (join [] cs) = length cs.
Proof.
  induction 1 as [|c cs Hc _ IH]; [reflexivity|].
  destruct cs as [|c' cs]; [exact Hc|].
  change (join [] (c :: c' :: cs)) with (c ++ [] ++ join [] (c' :: cs)).
  rewrite length_app. cbn [app]. rewrite IH, Hc. reflexivity.
Qed.

Lemma split_length (sep : N) (x : str) :
  length (split sep x) = S (length (List.filter (N.eqb sep) x)).
Proof.
  induction x as [|c x IH]; [reflexivity|]. cbn [split List.filter].
  rewrite (N.eqb_sym sep c). destruct (c =? sep).
  - cbn [length]. now rewrite IH.
  - pose proof (split_not_nil sep x).
    destruct (split sep x) as [|l ls]; [done|]. exact IH.
Qed.

Lemma generator_items {O M : Type} (index shortname : str)
    (alias : option str) (uc alt : str) (title category : option str)
    (options : O) (md : M) (e : Element) :
  _emoji_generator index shortname alias (Some uc) alt title category
                   options md = Ok e ->
  exists cs, chars_of_items (split 45 uc) = Ok cs
             /\ text e = Some (join [] cs).
Proof.
  unfold _emoji_generator.
  destruct (chars_of_items (split 45 uc)) as [cs|]; [|discriminate].
  cbn [bind]. intros [= <-]. eauto.
Qed.

End EmojiFacts.

(** X9: every element the emoji generator returns has the tag [x-emoji]
    and carries as [data-shortname] the alias, or the shortname when the
    alias is missing or empty, without its leading and trailing colons:
    the attribute neither starts nor ends with a colon. *)
Theorem emoji_shortname_without_colons (O M : Type) (index shortname : str)
    (alias uc : option str) (alt : str) (title category : option str)
    (options : O) (md : M) (e : Element) :
  _emoji_generator index shortname alias uc alt title category options md
  = Ok e ->
  tag e = s "x-emoji"
  /\ exists name,
       attrib e !! s "data-shortname" = Some name
       /\ name = strip_chars [58]
                   (match alias with
                    | Some (c :: a) => c :: a
                    | _ => shortname
                    end)
       /\ (forall r, name <> 58 :: r)
       /\ (forall r, name <> r ++ [58]).
Proof.
  intros H.
  set (base := match alias with Some (c :: a) => c :: a | _ => shortname end).
  assert (Hbase : match alias with
                  | Some a => if truthy a then a else shortname
                  | None => shortname
                  end = base) by now destruct alias as [[|? ?]|].
  assert (He : tag e = s "x-emoji"
               /\ attrib e !! s "data-shortname"
                  = Some (strip_chars [58] base)).
  { unfold _emoji_generator in H. rewrite Hbase in H.
    change (s ":") with [58] in H. destruct uc as [u|].
    - destruct (chars_of_items (split 45 u)); [|discriminate].
      cbn [bind] in H. injection H as <-. cbn [tag attrib].
      split; [reflexivity|].
      rewrite lookup_insert_ne by (vm_compute; discriminate).
      apply lookup_singleton_eq.
    - injection H as <-. cbn [tag attrib]. split; [reflexivity|].
      apply lookup_singleton_eq. }
  destruct He as [Ht Ha]. split; [exact Ht|].
  exists (strip_chars [58] base). split; [exact Ha|]. split; [reflexivity|].
  destruct (strip_chars_ends [58] base) as [Hhead Hlast]. split.
  - intros r E. specialize (Hhead _ _ E). cbn in Hhead. discriminate.
  - intros r E. apply (f_equal (@rev N)) in E. rewrite rev_app_distr in E.
    cbn [rev app] in E. specialize (Hlast _ _ E). cbn in Hlast.
    discriminate.
Qed.

Lemma emoji_shortname_without_colons_witness :
  exists name,
    attrib {| tag := s "x-emoji";
              attrib := {[ s "data-shortname" := s "+1" ]};
              text := Some (s ":+1:") |} !! s "data-shortname" = Some name
    /\ name = s "+1"
    /\ (forall r, name <> 58 :: r)
    /\ (forall r, name <> r ++ [58]).
Proof.
  apply (emoji_shortname_without_colons unit unit (s "twemoji") (s "thumbsup")
           (Some (s ":+1:")) None (s ":+1:") None None tt tt).
  vm_compute. reflexivity.
Defined.

(** X10: when the generator returns for a codepoint sequence, the text of
    the element has exactly one character for each hyphen-delimited item:
    one more than the sequence has hyphens. *)
Theorem emoji_text_one_char_per_item (O M : Type) (index shortname : str)
    (alias : option str) (uc alt : str) (title category : option str)
    (options : O) (md : M) (e : Element) :
  _emoji_generator index shortname alias (Some uc) alt title category
                   options md = Ok e ->
  exists t,
    text e = Some t
    /\ length t = length (split 45 uc)
    /\ length t = S (length (List.filter (N.eqb 45) uc)).
Proof.
  intros H. destruct (generator_items _ _ _ _ _ _ _ _ _ _ H) as (cs & Hc & Ht).
  destruct (chars_of_items_each _ _ Hc) as (Hl & H1 & _).
  exists (join [] cs). split; [exact Ht|].
  rewrite join_singletons_length by exact H1. rewrite Hl.
  split; [reflexivity | apply split_length].
Qed.

Lemma emoji_text_one_char_per_item_witness :
  exists t,
    Some [127469; 127482] = Some t
    /\ length t = length (split 45 (s "1f1ed-1f1fa"))
    /\ length t = S (length (List.filter (N.eqb 45) (s "1f1ed-1f1fa"))).
Proof.
  apply (emoji_text_one_char_per_item unit unit (s "twemoji") (s "flag_hu")
           None (s "1f1ed-1f1fa") (s ":flag_hu:") None None tt tt
           {| tag := s "x-emoji";
              attrib := <[ s "data-unicode" := s "1f1ed-1f1fa" ]>
                          {[ s "data-shortname" := s "flag_hu" ]};
              text := Some [127469; 127482] |}).
  vm_compute. reflexivity.
Defined.

(** X11: a codepoint sequence with an empty item (the empty string, a
    leading, trailing or doubled hyphen) makes the generator raise: no
    element is returned. *)
Theorem emoji_empty_item_raises (O M : Type) (index shortname : str)
    (alias : option str) (uc alt : str) (title category : option str)
    (options : O) (md : M) :
  In [] (split 45 uc) ->
  exists x,
    _emoji_generator index shortname alias (Some uc) alt title category
                     options md = Raise x.
Proof.
  intros Hin.
  destruct (_emoji_generator index shortname alias (Some uc) alt title
              category options md) as [e|x] eqn:H; [|eauto].
  destruct (generator_items _ _ _ _ _ _ _ _ _ _ H) as (cs & Hc & _).
  destruct (chars_of_items_each _ _ Hc) as (_ & _ & Hi).
  rewrite Forall_forall in Hi. apply list_elem_of_In in Hin.
  destruct (Hi _ Hin) as (n & c & Hn & _). vm_compute in Hn. discriminate.
Qed.

Lemma emoji_empty_item_raises_witness :
  exists x,
    _emoji_generator (s "twemoji") (s "smile") None (Some (s "1f604-"))
                     (s ":smile:") None None tt tt = Raise x.
Proof.
  apply (emoji_empty_item_raises unit unit (s "twemoji") (s "smile") None
           (s "1f604-") (s ":smile:") None None tt tt).
  vm_compute. right. left. reflexivity.
Defined.

(** X12: a codepoint sequence with an item of hexadecimal digits whose
    value is above U+10FFFF makes the generator raise: no element is
    returned. *)
Theorem emoji_item_out_of_range_raises (O M : Type) (index shortname : str)
    (alias : option str) (uc alt : str) (title category : option str)
    (options : O) (md : M) (item : str) (v : N) :
  In item (split 45 uc) -> item <> [] -> hex_value 0 item = Some v ->
  1114111 < v ->
  exists x,
    _emoji_generator index shortname alias (Some uc) alt title category
                     options md = Raise x.
Proof.
  intros Hin Hne Hv Hbig.
  destruct (_emoji_generator index shortname alias (Some uc) alt title
              category options md) as [e|x] eqn:H; [|eauto].
  destruct (generator_items _ _ _ _ _ _ _ _ _ _ H) as (cs & Hc & _).
  destruct (chars_of_items_each _ _ Hc) as (_ & _ & Hi).
  rewrite Forall_forall in Hi. apply list_elem_of_In in Hin.
  destruct (Hi _ Hin) as (n & c & Hn & Hchr).
  rewrite (int16_hex _ _ Hne Hv) in Hn. injection Hn as <-.
  unfold chr in Hchr.
  destruct ((Z.of_N v <? -2147483648)%Z || (2147483647 <? Z.of_N v)%Z);
    [discriminate|].
  destruct (Z.ltb_spec (Z.of_N v) 0); [discriminate|].
  destruct (Z.ltb_spec 1114111 (Z.of_N v)); [discriminate | lia].
Qed.

Lemma emoji_item_out_of_range_raises_witness :
  exists x,
    _emoji_generator (s "twemoji") (s "smile") None (Some (s "1f604-110000"))
                     (s ":smile:") None None tt tt = Raise x.
Proof.
  apply (emoji_item_out_of_range_raises unit unit (s "twemoji") (s "smile")
           None (s "1f604-110000") (s ":smile:") None None tt tt
           (s "110000") 1114112).
  - vm_compute. right. left. reflexivity.
  - vm_compute. discriminate.
  - vm_compute. reflexivity.
  - vm_compute. reflexivity.
Defined.

(** ** The formatter called again *)

(** X13: a list of classes that is passed to the formatter again and
    again collects the class each time: after [n] calls it holds [n]
    copies of [css_class] before its former content, and the next call
    returns a [div] whose [class] attribute lists them all. *)
Theorem formatter_calls_accumulate (O M : Type)
    (source language css_class : str) (options : O) (md : M) (l : loc)
    (id_value : str) (attrs : option (list (str * str)))
    (h : gmap loc (list str)) (old : list str) (n : nat) :
  h !! l = Some old ->
  exists hn,
    Nat.iter n
      (fun h0 =>
         match _verbatim_formatter source language css_class options md
                 (Some l) id_value attrs h0 with
         | Some (_, h1) => h1
         | None => h0
         end) h = hn
    /\ hn !! l = Some (repeat css_class n ++ old)
    /\ (forall l', l' <> l -> hn !! l' = h !! l')
    /\ exists h',
         _verbatim_formatter source language css_class options md (Some l)
                             id_value attrs hn
         = Some (s "<div" ++ id_attribute id_value
                   ++ s " class=" ++ [34]
                   ++ class_value css_class (repeat css_class n ++ old)
                   ++ [34]
                   ++ extra_attributes attrs ++ s ">" ++ source
                   ++ s "</div>", h').
Proof.
  intros Hl. eexists. split; [reflexivity|].
  assert (Hn : Nat.iter n
                 (fun h0 =>
                    match _verbatim_formatter source language css_class
                            options md (Some l) id_value attrs h0 with
                    | Some (_, h1) => h1
                    | None => h0
                    end) h !! l = Some (repeat css_class n ++ old)
               /\ forall l', l' <> l ->
                    Nat.iter n
                      (fun h0 =>
                         match _verbatim_formatter source language css_class
                                 options md (Some l) id_value attrs h0 with
                         | Some (_, h1) => h1
                         | None => h0
                         end) h !! l' = h !! l').
  { induction n as [|n [IH1 IH2]]; [now split|]. rewrite Nat.iter_succ.
    rewrite (verbatim_formatter_value _ _ _ _ _ (Some l) _ _ _ _ IH1).
    split.
    - now rewrite lookup_insert_eq.
    - intros l' Hne. rewrite lookup_insert_ne by congruence. now apply IH2. }
  destruct Hn as [Hn1 Hn2]. split; [exact Hn1|]. split; [exact Hn2|].
  eexists. apply (verbatim_formatter_value _ _ _ _ _ (Some l)). exact Hn1.
Qed.

Lemma formatter_calls_accumulate_witness :
  exists hn,
    Nat.iter 2
      (fun h0 =>
         match _verbatim_formatter (s "x") (s "math") (s "arithmatex") tt tt
                 (Some 1%positive) [] None h0 with
         | Some (_, h1) => h1
         | None => h0
         end) ({[ 1%positive := [s "wide"] ]} : gmap loc (list str)) = hn
    /\ hn !! 1%positive = Some [s "arithmatex"; s "arithmatex"; s "wide"].
Proof.
  destruct (formatter_calls_accumulate unit unit (s "x") (s "math")
              (s "arithmatex") tt tt 1%positive [] None
              {[ 1%positive := [s "wide"] ]} [s "wide"] 2
              ltac:(apply lookup_singleton_eq)) as (hn & E & Hl & _).
  exists hn. split; [exact E | exact Hl].
Defined.

(** ** The conversion *)

(** X14: whatever the engine is, [markdown_to_html] resets it and
    returns what its [convert] returns on the result of
    [_preprocess_list_indentation], which never fails: a text with as
    many lines as the content, each with the left-trimmed content of the
    line at its position, and the content itself when no marker line in
    it has an indentation that is even and no multiple of 4. *)
Theorem conversion_calls_engine_on_prepass (Engine : Type)
    (reset : Engine -> Engine)
    (convert : Engine -> str -> result str * Engine)
    (converter : Engine) (content : str) :
  exists pre,
    _preprocess_list_indentation content = Ok pre
    /\ markdown_to_html Engine reset convert converter content
       = convert (reset converter) pre
    /\ length (split 10 pre) = length (split 10 content)
    /\ (forall k line,
          split 10 content !! k = Some line ->
          exists o, split 10 pre !! k = Some o /\ lstrip o = lstrip line)
    /\ (Forall (fun l => evidence_line l = false) (split 10 content) ->
        pre = content).
Proof.
  destruct (preprocess_value content) as [E S].
  eexists. split; [exact E|].
  split; [unfold markdown_to_html; now rewrite E|].
  rewrite S. split; [apply emit_all_length|]. split.
  - intros k line Hline. rewrite (emit_all_lookup _ _ _ _ _ _ Hline).
    eexists. split; [reflexivity | apply emit_lstrip].
  - intros Hc. now rewrite emit_all_canonical, join_split.
Qed.

Lemma conversion_calls_engine_on_prepass_witness :
  exists pre,
    _preprocess_list_indentation (text_of [s "- a"; s "    - b"]) = Ok pre
    /\ markdown_to_html nat (fun _ => 0%nat)
         (fun n text => (Ok (s "<p>" ++ text ++ s "</p>"), S n)) 7%nat
         (text_of [s "- a"; s "    - b"])
       = (Ok (s "<p>" ++ pre ++ s "</p>"), 1%nat)
    /\ pre = text_of [s "- a"; s "    - b"].
Proof.
  destruct (conversion_calls_engine_on_prepass nat (fun _ => 0%nat)
              (fun n text => (Ok (s "<p>" ++ text ++ s "</p>"), S n)) 7%nat
              (text_of [s "- a"; s "    - b"]))
    as (pre & Ep & E & _ & _ & Hc).
  exists pre. split; [exact Ep|]. split; [exact E|]. apply Hc.
  assert (Es : split 10 (text_of [s "- a"; s "    - b"])
               = [s "- a"; s "    - b"]) by (vm_compute; reflexivity).
  rewrite Es. repeat (constructor; [vm_compute; reflexivity|]). constructor.
Defined.
